(** * TraversabilityEstimation: the update orchestrator of the traversability node

    A shallow embedding of [TraversabilityEstimation.cpp]
    (namespace [traversability_estimation]).  The node owns a
    [TraversabilityMap] (the engine), a flag [getImageCallback_] that records
    whether an elevation image has ever been received, and the grid map
    [imageGridMap_] accumulated from those images.  Every callback of the node
    is a state transformer on [Node] that also emits the ordered list of calls
    it makes to its collaborators (engine, ROS service client, tf listener,
    bag storage, shell).

    Conventions.
    - [double] and [float] values are carried as exact rationals [Q]; the node
      performs no arithmetic on them apart from one subtraction of two
      zero-filled layers.
    - [ros::Time] and grid map time stamps are nanosecond counts in [Z].
    - C++ out-parameters become an extra argument and an extra result.
    - Logging macros ([ROS_DEBUG], [ROS_INFO], [ROS_WARN], [ROS_ERROR]) have no
      effect on the state or on the collaborators and are left out. *)

From Stdlib Require Import List String ZArith QArith Qround Bool Arith Lia.
Import ListNotations.
Local Open Scope string_scope.
Local Open Scope list_scope.

Set Implicit Arguments.

(** ** Geometry and matrices *)

(** [grid_map::Position], [grid_map::Length]: a pair of doubles. *)
Record Vector2 : Type := mkVector2 { vx : Q; vy : Q }.

Definition Position : Type := Vector2.
Definition Length : Type := Vector2.

(** [grid_map::Size]: number of rows and columns. *)
Definition Size : Type := (nat * nat)%type.

(** [grid_map::Matrix]: a dense matrix of cell values, row by row. *)
Definition Matrix : Type := list (list Q).

(** [Matrix::Constant(rows, cols, value)]. *)
Definition constant (rows cols : nat) (value : Q) : Matrix :=
  repeat (repeat value cols) rows.

Fixpoint zipWith {A B C : Type} (f : A -> B -> C) (l : list A) (r : list B) : list C :=
  match l, r with
  | a :: l', b :: r' => f a b :: zipWith f l' r'
  | _, _ => []
  end.

(** Coefficient-wise [operator-] of two matrices. *)
Definition msub (a b : Matrix) : Matrix := zipWith (zipWith Qminus) a b.

(** ** The grid map container ([grid_map::GridMap])

    The container keeps the ordered list of layer names ([layers_]) and the
    data of every layer ([data_]); both are held here in one association
    list, in the order of [layers_].  The circular-buffer start index and the
    list of basic layers play no role in the node and are left out. *)

Record GridMap : Type := mkGridMap {
  frameId_ : string;
  timestamp_ : Z;
  layers_ : list (string * Matrix);
  length_ : Length;
  resolution_ : Q;
  position_ : Position;
  size_ : Size
}.

(** The geometry of a grid map: everything but time stamp and layer data. *)
Record Geometry : Type := mkGeometry {
  geo_frameId : string;
  geo_length : Length;
  geo_resolution : Q;
  geo_position : Position;
  geo_size : Size
}.

Definition geometry (m : GridMap) : Geometry :=
  {| geo_frameId := frameId_ m; geo_length := length_ m;
     geo_resolution := resolution_ m; geo_position := position_ m;
     geo_size := size_ m |}.

Definition zero2 : Vector2 := {| vx := 0; vy := 0 |}.

(** [GridMap::GridMap(layers)]: all-zero geometry, one empty matrix per layer. *)
Definition emptyGridMap (layers : list string) : GridMap :=
  {| frameId_ := ""; timestamp_ := 0%Z;
     layers_ := map (fun l => (l, [])) layers;
     length_ := zero2; resolution_ := 0; position_ := zero2; size_ := (0, 0)%nat |}.

(** [GridMap::getLayers]. *)
Definition getLayers (m : GridMap) : list string := map fst (layers_ m).

Fixpoint lookup (layer : string) (ls : list (string * Matrix)) : option Matrix :=
  match ls with
  | [] => None
  | (l, d) :: ls' => if String.eqb l layer then Some d else lookup layer ls'
  end.

(** [GridMap::get]: [None] stands for the [std::out_of_range] it throws. *)
Definition get (layer : string) (m : GridMap) : option Matrix := lookup layer (layers_ m).

(** [GridMap::exists]. *)
Definition exists_ (layer : string) (m : GridMap) : bool :=
  match get layer m with Some _ => true | None => false end.

Fixpoint replace (layer : string) (data : Matrix) (ls : list (string * Matrix))
  : list (string * Matrix) :=
  match ls with
  | [] => []
  | (l, d) :: ls' =>
      if String.eqb l layer then (l, data) :: ls' else (l, d) :: replace layer data ls'
  end.

(** [GridMap::add(layer, data)]: overwrite the data of an existing layer, or
    append a new layer at the end. *)
Definition add (layer : string) (data : Matrix) (m : GridMap) : GridMap :=
  {| frameId_ := frameId_ m; timestamp_ := timestamp_ m;
     layers_ := if exists_ layer m then replace layer data (layers_ m)
                else layers_ m ++ [(layer, data)];
     length_ := length_ m; resolution_ := resolution_ m;
     position_ := position_ m; size_ := size_ m |}.

(** [GridMap::add(layer, value)]: a constant layer of the size of the map. *)
Definition addConstant (layer : string) (value : Q) (m : GridMap) : GridMap :=
  add layer (constant (fst (size_ m)) (snd (size_ m)) value) m.

(** [GridMap::setTimestamp]. *)
Definition setTimestamp (t : Z) (m : GridMap) : GridMap :=
  {| frameId_ := frameId_ m; timestamp_ := t; layers_ := layers_ m;
     length_ := length_ m; resolution_ := resolution_ m;
     position_ := position_ m; size_ := size_ m |}.

(** ** ROS messages *)

Record Header : Type := mkHeader { stamp : Z; frame_id : string }.
Record Point : Type := mkPoint { point_x : Q; point_y : Q; point_z : Q }.
Record Quaternion : Type := mkQuaternion { quat_x : Q; quat_y : Q; quat_z : Q; quat_w : Q }.
Record Pose : Type := mkPose { pose_position : Point; pose_orientation : Quaternion }.
Record PointStamped : Type := mkPointStamped { ps_header : Header; ps_point : Point }.

(** Message constructors zero every field. *)
Definition defaultHeader : Header := {| stamp := 0; frame_id := "" |}.
Definition defaultPoint : Point := {| point_x := 0; point_y := 0; point_z := 0 |}.
Definition defaultQuaternion : Quaternion :=
  {| quat_x := 0; quat_y := 0; quat_z := 0; quat_w := 0 |}.
Definition defaultPose : Pose :=
  {| pose_position := defaultPoint; pose_orientation := defaultQuaternion |}.

(** [grid_map_msgs/GridMapInfo]. *)
Record GridMapInfo : Type := mkGridMapInfo {
  info_header : Header;
  info_resolution : Q;
  info_length_x : Q;
  info_length_y : Q;
  info_pose : Pose
}.

Definition defaultGridMapInfo : GridMapInfo :=
  {| info_header := defaultHeader; info_resolution := 0; info_length_x := 0;
     info_length_y := 0; info_pose := defaultPose |}.

(** [grid_map_msgs/GridMap]: geometry, layer names and one data array per layer. *)
Record GridMapMsg : Type := mkGridMapMsg {
  msg_info : GridMapInfo;
  msg_layers : list string;
  msg_data : list Matrix
}.

Definition defaultGridMapMsg : GridMapMsg :=
  {| msg_info := defaultGridMapInfo; msg_layers := []; msg_data := [] |}.

(** [grid_map_msgs/GetGridMap] request and response. *)
Record GetGridMapRequest : Type := mkGetGridMapRequest {
  req_frame_id : string;
  req_position_x : Q;
  req_position_y : Q;
  req_length_x : Q;
  req_length_y : Q;
  req_layers : list string
}.

Record GetGridMapResponse : Type := mkGetGridMapResponse { resp_map : GridMapMsg }.

Definition defaultGetGridMapRequest : GetGridMapRequest :=
  {| req_frame_id := ""; req_position_x := 0; req_position_y := 0;
     req_length_x := 0; req_length_y := 0; req_layers := [] |}.

(** [grid_map_msgs/GetGridMapInfo] response. *)
Record GetGridMapInfoResponse : Type := mkGetGridMapInfoResponse { resp_info : GridMapInfo }.

(** [sensor_msgs/Image]. *)
Record Image : Type := mkImage {
  img_header : Header;
  img_height : nat;
  img_width : nat;
  img_encoding : string;
  img_data : list Z
}.

(** ** Conversion between grid maps and messages ([GridMapRosConverter]) *)

Definition infoOf (m : GridMap) : GridMapInfo :=
  {| info_header := {| stamp := timestamp_ m; frame_id := frameId_ m |};
     info_resolution := resolution_ m;
     info_length_x := vx (length_ m);
     info_length_y := vy (length_ m);
     info_pose :=
       {| pose_position :=
            {| point_x := vx (position_ m); point_y := vy (position_ m); point_z := 0 |};
          pose_orientation :=
            {| quat_x := 0; quat_y := 0; quat_z := 0; quat_w := 1 |} |} |}.

(** The data of the named layers, in the order asked for; [None] as soon as
    one of them is absent ([GridMap::get] throws). *)
Fixpoint layerData (m : GridMap) (layers : list string) : option (list Matrix) :=
  match layers with
  | [] => Some []
  | l :: ls =>
      match get l m with
      | None => None
      | Some d =>
          match layerData m ls with
          | None => None
          | Some ds => Some (d :: ds)
          end
      end
  end.

(** [toMessage(gridMap, layers, message)]. *)
Definition toMessageLayers (m : GridMap) (layers : list string) : option GridMapMsg :=
  match layerData m layers with
  | None => None
  | Some ds => Some {| msg_info := infoOf m; msg_layers := layers; msg_data := ds |}
  end.

(** [toMessage(gridMap, message)]: every layer of the map, in the map's order. *)
Definition toMessage (m : GridMap) : GridMapMsg :=
  {| msg_info := infoOf m; msg_layers := getLayers m; msg_data := map snd (layers_ m) |}.

Definition sameSize (img : Image) (m : GridMap) : bool :=
  Nat.eqb (fst (size_ m)) (img_height img) && Nat.eqb (snd (size_ m)) (img_width img).

(** The parts of the grid map library whose result is computed from pixel
    data or from floating-point geometry are taken as they are, as
    operations of the library. *)
Class GridMapLibrary : Type := {
  (** [GridMapRosConverter::initializeFromImage(image, resolution, gridMap, position)] *)
  initializeFromImage : Image -> Q -> Position -> GridMap -> GridMap;
  (** the cell values [addLayerFromImage] reads from an image for the height
      range [lowerValue..upperValue]; [None] for an encoding it rejects *)
  imageToMatrix : Image -> Q -> Q -> option Matrix;
  (** the geometry [GridMap::getSubmap] computes for a requested position and
      length; [None] when it reports [isSuccess = false], that is for a region
      that does not meet the map or that cannot be laid out on its cells *)
  submapGeometry : GridMap -> Position -> Length -> option Geometry;
  (** the block of one layer that [getSubmap] copies for that geometry *)
  submapBlock : GridMap -> Geometry -> Matrix -> Matrix
}.

Section GridMapConversions.
Context {lib : GridMapLibrary}.

(** [GridMapRosConverter::addLayerFromImage]: refuses an image it cannot
    decode or whose size is not the size of the map, and otherwise adds
    (or overwrites) the one layer it is asked for. *)
Definition addLayerFromImage (img : Image) (layer : string) (m : GridMap)
           (lowerValue upperValue : Q) : bool * GridMap :=
  match imageToMatrix img lowerValue upperValue with
  | None => (false, m)
  | Some d => if sameSize img m then (true, add layer d m) else (false, m)
  end.

(** [GridMap::getSubmap(position, length, isSuccess)]: on failure an empty
    map with the layer names of the source; on success the layers of the
    source cut to the submap geometry. *)
Definition getSubmap (m : GridMap) (position : Position) (length : Length)
  : GridMap * bool :=
  match submapGeometry m position length with
  | None => (emptyGridMap (getLayers m), false)
  | Some g =>
      ({| frameId_ := frameId_ m; timestamp_ := timestamp_ m;
          layers_ := map (fun ld => (fst ld, submapBlock m g (snd ld))) (layers_ m);
          length_ := geo_length g; resolution_ := geo_resolution g;
          position_ := geo_position g; size_ := geo_size g |}, true)
  end.
End GridMapConversions.

(** ** [ros::Duration] *)

Record Duration : Type := mkDuration { sec : Z; nsec : Z }.

(** [boost::math::round]: to the nearest integer, halves away from zero. *)
Definition roundHalfAway (q : Q) : Z :=
  if Qle_bool 0 q then Qfloor (q + (1 # 2)) else Qceiling (q - (1 # 2)).

(** [DurationBase::fromSec], without its 32-bit range check. *)
Definition fromSec (d : Q) : Duration :=
  let s := Qfloor d in
  let ns := roundHalfAway ((d - inject_Z s) * inject_Z 1000000000) in
  {| sec := s + Z.quot ns 1000000000; nsec := Z.rem ns 1000000000 |}.

(** [DurationBase::isZero]. *)
Definition isZero (d : Duration) : bool := Z.eqb (sec d) 0 && Z.eqb (nsec d) 0.

(** ** The engine ([TraversabilityMap])

    The node drives the engine through these member functions only.  The
    path and result messages of [traversability_msgs] are never inspected by
    the node and stay abstract. *)
Module TraversabilityMap.
Class Ops (E Path Result : Type) : Type := {
  setElevationMap : GridMapMsg -> E -> E;
  computeTraversability : E -> bool * E;
  traversabilityMapInitialized : E -> bool;
  getTraversabilityMap : E -> GridMap;
  getMapFrameId : E -> string;
  (** [checkFootprintPath(path, result, publishPolygons)], [result] in and out *)
  checkFootprintPath : Path -> Result -> bool -> E -> bool * Result * E;
  traversabilityFootprint : Q -> E -> bool * E;
  updateFilter : E -> bool * E;
  (** [traversability_msgs::TraversabilityResult()] *)
  defaultResult : Result
}.
End TraversabilityMap.

(** ** The ROS environment of one callback invocation *)
Record Env : Type := mkEnv {
  (** [ros::Time::now()] *)
  now : Z;
  (** [ServiceClient::waitForExistence(timeout)] of the client of a service *)
  waitForExistence : string -> Q -> bool;
  (** [tf::TransformListener::transformPoint(targetFrame, in, out)];
      [None] when it throws [tf::TransformException] *)
  transformPoint : string -> PointStamped -> option PointStamped;
  (** [ServiceClient::call] on the submap service; [None] when it returns false *)
  callGetGridMap : string -> GetGridMapRequest -> option GetGridMapResponse;
  (** [GridMapRosConverter::loadFromBag(path, topic, map)]; [None] for false *)
  loadFromBag : string -> string -> option GridMap;
  (** [GridMapRosConverter::saveToBag(map, path, topic)] *)
  saveToBag : GridMap -> string -> string -> bool;
  (** [ros::package::getPath] *)
  getPath : string -> string;
  (** [system(command)] *)
  system : string -> Z
}.

(** The parameters read by [readParameters], after defaulting. *)
Record Params : Type := mkParams {
  p_submap_service : string;
  p_min_update_rate : Q;
  p_image_topic : string;
  p_resolution : Q;
  p_min_height : Q;
  p_max_height : Q;
  p_image_position_x : Q;
  p_image_position_y : Q;
  p_robot_frame_id : string;
  p_robot : string;
  p_package : string;
  p_map_center_x : Q;
  p_map_center_y : Q;
  p_map_length_x : Q;
  p_map_length_y : Q;
  p_footprint_yaw : Q;
  p_elevation_map_topic : string;
  p_load_path_to_bag : string;
  p_save_path_to_bag : string
}.

(** ** The node *)
Section Node.
Variables E Path Result : Type.

(** The members of [TraversabilityEstimation] that the callbacks use. *)
Record Node : Type := mkNode {
  traversabilityMap_ : E;
  submapServiceName_ : string;
  updateDuration_ : Duration;
  imageTopic_ : string;
  imageResolution_ : Q;
  imageMinHeight_ : Q;
  imageMaxHeight_ : Q;
  imagePosition_ : Position;
  robotFrameId_ : string;
  robot_ : string;
  package_ : string;
  submapPoint_ : PointStamped;
  mapLength_ : Length;
  footprintYaw_ : Q;
  bagTopicName_ : string;
  pathToLoadBag_ : string;
  pathToSaveBag_ : string;
  elevationMapLayers_ : list string;
  imageGridMap_ : GridMap;
  getImageCallback_ : bool;
  (** [updateTimer_]: whether the constructor created the periodic timer *)
  updateTimer_ : bool
}.

(** A call made by the node to one of its collaborators. *)
Inductive Call : Type :=
| CallWaitForExistence (service : string) (timeout : Q)
| CallTransformPoint (targetFrame : string) (point : PointStamped)
| CallGetGridMap (service : string) (request : GetGridMapRequest)
| CallLoadFromBag (path topic : string)
| CallSaveToBag (map : GridMap) (path topic : string)
| CallSystem (command : string)
| CallSetElevationMap (msg : GridMapMsg)
| CallComputeTraversability
| CallCheckFootprintPath (path : Path)
| CallTraversabilityFootprint (yaw : Q)
| CallUpdateFilter.

(** What a callback hands back to roscpp. *)
Inductive Outcome (R : Type) : Type :=
| Returned (ok : bool) (response : R)
| Threw
| Hung.

(** The reply the service client receives: roscpp delivers the response
    only when the callback returned [true]. *)
Definition delivered {R : Type} (o : Outcome R) : option R :=
  match o with
  | Returned true r => Some r
  | _ => None
  end.

(** Member functions run in this monad: they read and write the node and
    emit the calls they make, in order. *)
Definition M (A : Type) : Type := Node -> A * Node * list Call.

Definition ret {A : Type} (a : A) : M A := fun st => (a, st, []).

Definition bind {A B : Type} (m : M A) (k : A -> M B) : M B :=
  fun st =>
    let '(a, st1, c1) := m st in
    let '(b, st2, c2) := k a st1 in
    (b, st2, c1 ++ c2).

Definition gets {A : Type} (f : Node -> A) : M A := fun st => (f st, st, []).
Definition modify (f : Node -> Node) : M unit := fun st => (tt, f st, []).
Definition emit (c : Call) : M unit := fun st => (tt, st, [c]).

Definition value {A : Type} (r : A * Node * list Call) : A := fst (fst r).
Definition after {A : Type} (r : A * Node * list Call) : Node := snd (fst r).
Definition calls {A : Type} (r : A * Node * list Call) : list Call := snd r.
End Node.

Arguments Returned {R} ok response.
Arguments Threw {R}.
Arguments Hung {R}.
Arguments CallWaitForExistence {Path}.
Arguments CallTransformPoint {Path}.
Arguments CallGetGridMap {Path}.
Arguments CallLoadFromBag {Path}.
Arguments CallSaveToBag {Path}.
Arguments CallSystem {Path}.
Arguments CallSetElevationMap {Path}.
Arguments CallComputeTraversability {Path}.
Arguments CallTraversabilityFootprint {Path}.
Arguments CallUpdateFilter {Path}.
Arguments ret {E Path A}.
Arguments bind {E Path A B}.
Arguments gets {E Path A}.
Arguments modify {E Path}.
Arguments emit {E Path}.
Arguments value {E Path A}.
Arguments after {E Path A}.
Arguments calls {E Path A}.
Arguments delivered {R}.

Declare Scope node_scope.
Notation "x <- m ;; k" := (bind m (fun x => k))
  (at level 61, m at next level, right associativity) : node_scope.
Notation "m ;;; k" := (bind m (fun _ => k))
  (at level 61, right associativity) : node_scope.

Local Open Scope node_scope.

(** [traversability_msgs/CheckFootprintPath] request and response. *)
Record CheckFootprintPathRequest (Path : Type) : Type :=
  mkCheckFootprintPathRequest { cfp_path : list Path }.
Record CheckFootprintPathResponse (Result : Type) : Type :=
  mkCheckFootprintPathResponse { cfp_result : list Result }.

(** ** Member functions of [TraversabilityEstimation] *)
Section TraversabilityEstimation.
Context {lib : GridMapLibrary}.
Context {E Path Result : Type}.
Context {engine : TraversabilityMap.Ops E Path Result}.

Abbreviation Node := (Node E).
Abbreviation M := (M E Path).
Abbreviation Call := (Call Path).

(** *** Assignments to single members *)

Definition setTraversabilityMap (e : E) (st : Node) : Node :=
  mkNode e (submapServiceName_ st) (updateDuration_ st) (imageTopic_ st)
    (imageResolution_ st) (imageMinHeight_ st) (imageMaxHeight_ st) (imagePosition_ st)
    (robotFrameId_ st) (robot_ st) (package_ st) (submapPoint_ st) (mapLength_ st)
    (footprintYaw_ st) (bagTopicName_ st) (pathToLoadBag_ st) (pathToSaveBag_ st)
    (elevationMapLayers_ st) (imageGridMap_ st) (getImageCallback_ st) (updateTimer_ st).

Definition setImageGridMap (m : GridMap) (st : Node) : Node :=
  mkNode (traversabilityMap_ st) (submapServiceName_ st) (updateDuration_ st) (imageTopic_ st)
    (imageResolution_ st) (imageMinHeight_ st) (imageMaxHeight_ st) (imagePosition_ st)
    (robotFrameId_ st) (robot_ st) (package_ st) (submapPoint_ st) (mapLength_ st)
    (footprintYaw_ st) (bagTopicName_ st) (pathToLoadBag_ st) (pathToSaveBag_ st)
    (elevationMapLayers_ st) m (getImageCallback_ st) (updateTimer_ st).

Definition setGetImageCallback (b : bool) (st : Node) : Node :=
  mkNode (traversabilityMap_ st) (submapServiceName_ st) (updateDuration_ st) (imageTopic_ st)
    (imageResolution_ st) (imageMinHeight_ st) (imageMaxHeight_ st) (imagePosition_ st)
    (robotFrameId_ st) (robot_ st) (package_ st) (submapPoint_ st) (mapLength_ st)
    (footprintYaw_ st) (bagTopicName_ st) (pathToLoadBag_ st) (pathToSaveBag_ st)
    (elevationMapLayers_ st) (imageGridMap_ st) b (updateTimer_ st).

Definition setSubmapPoint (p : PointStamped) (st : Node) : Node :=
  mkNode (traversabilityMap_ st) (submapServiceName_ st) (updateDuration_ st) (imageTopic_ st)
    (imageResolution_ st) (imageMinHeight_ st) (imageMaxHeight_ st) (imagePosition_ st)
    (robotFrameId_ st) (robot_ st) (package_ st) p (mapLength_ st)
    (footprintYaw_ st) (bagTopicName_ st) (pathToLoadBag_ st) (pathToSaveBag_ st)
    (elevationMapLayers_ st) (imageGridMap_ st) (getImageCallback_ st) (updateTimer_ st).

(** *** Calls into the engine *)

Definition engineSetElevationMap (msg : GridMapMsg) : M unit :=
  emit (CallSetElevationMap msg) ;;;
  modify (fun st =>
    setTraversabilityMap (TraversabilityMap.setElevationMap msg (traversabilityMap_ st)) st).

Definition engineRun {A : Type} (c : Call) (f : E -> A * E) : M A :=
  emit c ;;;
  e <- gets (@traversabilityMap_ E) ;;
  modify (setTraversabilityMap (snd (f e))) ;;;
  ret (fst (f e)).

Definition engineComputeTraversability : M bool :=
  engineRun CallComputeTraversability TraversabilityMap.computeTraversability.

(** *** Constructor and [readParameters] *)

Definition readParameters (p : Params) (st : Node) : Node :=
  mkNode (traversabilityMap_ st)
    (p_submap_service p)
    (if negb (Qeq_bool (p_min_update_rate p) 0)
     then fromSec (1 / p_min_update_rate p) else fromSec 0)
    (p_image_topic p) (p_resolution p) (p_min_height p) (p_max_height p)
    {| vx := p_image_position_x p; vy := p_image_position_y p |}
    (p_robot_frame_id p) (p_robot p) (p_package p)
    {| ps_header := {| stamp := stamp (ps_header (submapPoint_ st));
                       frame_id := p_robot_frame_id p |};
       ps_point := {| point_x := p_map_center_x p; point_y := p_map_center_y p;
                      point_z := 0 |} |}
    {| vx := p_map_length_x p; vy := p_map_length_y p |}
    (p_footprint_yaw p)
    (p_elevation_map_topic p) (p_load_path_to_bag p) (p_save_path_to_bag p)
    (elevationMapLayers_ st) (imageGridMap_ st) (getImageCallback_ st) (updateTimer_ st).

(** The members as the initialiser list and the default constructors set
    them, around the engine built from the node handle. *)
Definition initialMembers (e : E) : Node :=
  mkNode e "" (mkDuration 0 0) "" 0 0 0 zero2 "" "" ""
    {| ps_header := defaultHeader; ps_point := defaultPoint |} zero2 0 "" "" ""
    [] (emptyGridMap []) false false.

Definition armUpdateTimer (st : Node) : Node :=
  mkNode (traversabilityMap_ st) (submapServiceName_ st) (updateDuration_ st) (imageTopic_ st)
    (imageResolution_ st) (imageMinHeight_ st) (imageMaxHeight_ st) (imagePosition_ st)
    (robotFrameId_ st) (robot_ st) (package_ st) (submapPoint_ st) (mapLength_ st)
    (footprintYaw_ st) (bagTopicName_ st) (pathToLoadBag_ st) (pathToSaveBag_ st)
    (elevationMapLayers_ st) (imageGridMap_ st) (getImageCallback_ st)
    (negb (isZero (updateDuration_ st))).

Definition pushElevationMapLayer (layer : string) (st : Node) : Node :=
  mkNode (traversabilityMap_ st) (submapServiceName_ st) (updateDuration_ st) (imageTopic_ st)
    (imageResolution_ st) (imageMinHeight_ st) (imageMaxHeight_ st) (imagePosition_ st)
    (robotFrameId_ st) (robot_ st) (package_ st) (submapPoint_ st) (mapLength_ st)
    (footprintYaw_ st) (bagTopicName_ st) (pathToLoadBag_ st) (pathToSaveBag_ st)
    (elevationMapLayers_ st ++ [layer]) (imageGridMap_ st) (getImageCallback_ st)
    (updateTimer_ st).

(** [TraversabilityEstimation::TraversabilityEstimation]. *)
Definition construct (p : Params) (e : E) : Node :=
  let st := readParameters p (initialMembers e) in
  let st := armUpdateTimer st in
  let st := pushElevationMapLayer "elevation" st in
  let st := pushElevationMapLayer "upper_bound" st in
  pushElevationMapLayer "lower_bound" st.

(** *** [loadElevationMap] *)

(** The loop over [elevationMapLayers_] that adds every absent layer. *)
Fixpoint addMissingLayers (layers : list string) (map : GridMap) : GridMap :=
  match layers with
  | [] => map
  | layer :: rest =>
      addMissingLayers rest
        (if negb (exists_ layer map) then addConstant layer 0 map else map)
  end.

Definition loadElevationMap (env : Env) (response : unit) : M (Outcome unit) :=
  path <- gets (@pathToLoadBag_ E) ;;
  topic <- gets (@bagTopicName_ E) ;;
  emit (CallLoadFromBag path topic) ;;;
  match loadFromBag env path topic with
  | None => ret (Returned false response)
  | Some map =>
      layers <- gets (@elevationMapLayers_ E) ;;
      let map := addMissingLayers layers map in
      let map := setTimestamp (now env) map in
      engineSetElevationMap (toMessage map) ;;;
      ok <- engineComputeTraversability ;;
      if negb ok then ret (Returned false response)
      else ret (Returned true response)
  end.

(** *** [imageCallback] *)

Definition onImageGridMap (f : GridMap -> GridMap) : M unit :=
  modify (fun st => setImageGridMap (f (imageGridMap_ st)) st).

(** The body of [if (!getImageCallback_)]; the result is [false] when one
    of the two [get] calls throws. *)
Definition initializeImageGridMap (image : Image) : M bool :=
  modify (fun st =>
    setImageGridMap
      (initializeFromImage image (imageResolution_ st) (imagePosition_ st) (imageGridMap_ st))
      st) ;;;
  onImageGridMap (addConstant "upper_bound" 0) ;;;
  onImageGridMap (addConstant "lower_bound" 0) ;;;
  map <- gets (@imageGridMap_ E) ;;
  match get "upper_bound" map, get "lower_bound" map with
  | Some upper, Some lower =>
      onImageGridMap (add "uncertainty_range" (msub upper lower)) ;;;
      modify (setGetImageCallback true) ;;;
      ret true
  | _, _ => ret false
  end.

Definition imageCallback (image : Image) : M (Outcome unit) :=
  received <- gets (@getImageCallback_ E) ;;
  proceed <- (if negb received then initializeImageGridMap image else ret true) ;;
  if proceed then
    modify (fun st =>
      setImageGridMap
        (snd (addLayerFromImage image "elevation" (imageGridMap_ st)
                (imageMinHeight_ st) (imageMaxHeight_ st)))
        st) ;;;
    map <- gets (@imageGridMap_ E) ;;
    engineSetElevationMap (toMessage map) ;;;
    ret (Returned true tt)
  else ret Threw.

(** *** [requestElevationMap] and [updateTraversability] *)

Definition requestElevationMap (env : Env) (map : GridMapMsg) : M (bool * GridMapMsg) :=
  modify (fun st =>
    setSubmapPoint
      {| ps_header := {| stamp := 0; frame_id := frame_id (ps_header (submapPoint_ st)) |};
         ps_point := ps_point (submapPoint_ st) |}
      st) ;;;
  frame <- gets (fun st => TraversabilityMap.getMapFrameId (traversabilityMap_ st)) ;;
  submapPoint <- gets (@submapPoint_ E) ;;
  emit (CallTransformPoint frame submapPoint) ;;;
  match transformPoint env frame submapPoint with
  | None => ret (false, map)
  | Some submapPointTransformed =>
      mapLength <- gets (@mapLength_ E) ;;
      layers <- gets (@elevationMapLayers_ E) ;;
      service <- gets (@submapServiceName_ E) ;;
      let request :=
        {| req_frame_id := "";
           req_position_x := point_x (ps_point submapPointTransformed);
           req_position_y := point_y (ps_point submapPointTransformed);
           req_length_x := vx mapLength;
           req_length_y := vy mapLength;
           req_layers := layers |} in
      emit (CallGetGridMap service request) ;;;
      match callGetGridMap env service request with
      | None => ret (false, map)
      | Some response => ret (true, resp_map response)
      end
  end.

Definition updateTraversability (env : Env) : M bool :=
  let elevationMap := defaultGridMapMsg in
  received <- gets (@getImageCallback_ E) ;;
  if negb received then
    service <- gets (@submapServiceName_ E) ;;
    emit (CallWaitForExistence service 2) ;;;
    if negb (waitForExistence env service 2) then ret false
    else
      r <- requestElevationMap env elevationMap ;;
      if fst r then
        engineSetElevationMap (snd r) ;;;
        ok <- engineComputeTraversability ;;
        if negb ok then ret false else ret true
      else ret false
  else
    ok <- engineComputeTraversability ;;
    if negb ok then ret false else ret true.

(** [updateTimerCallback]: the result of the update is dropped. *)
Definition updateTimerCallback (env : Env) : M unit :=
  updateTraversability env ;;; ret tt.

(** *** [updateServiceCallback] *)

(** [while (!traversabilityMap_.traversabilityMapInitialized()) sleep(1.0);]
    with a budget on the number of times the condition is evaluated; the
    result is [false] when the budget runs out with the loop still spinning. *)
Fixpoint waitUntilInitialized (polls : nat) : M bool :=
  match polls with
  | O => ret false
  | S polls' =>
      initialized <- gets (fun st =>
        TraversabilityMap.traversabilityMapInitialized (traversabilityMap_ st)) ;;
      if initialized then ret true else waitUntilInitialized polls'
  end.

(** The response as filled in after the wait. *)
Definition fillInfo (env : Env) (e : E) (response : GetGridMapInfoResponse)
  : GetGridMapInfoResponse :=
  let traversabilityMap := TraversabilityMap.getTraversabilityMap e in
  let info := resp_info response in
  let position := position_ traversabilityMap in
  let pose :=
    {| pose_position :=
         {| point_x := vx position; point_y := vy position;
            point_z := point_z (pose_position defaultPose) |};
       pose_orientation :=
         {| quat_x := quat_x (pose_orientation defaultPose);
            quat_y := quat_y (pose_orientation defaultPose);
            quat_z := quat_z (pose_orientation defaultPose);
            quat_w := 1 |} |} in
  {| resp_info :=
       {| info_header := {| stamp := now env; frame_id := TraversabilityMap.getMapFrameId e |};
          info_resolution := resolution_ traversabilityMap;
          info_length_x := vx (length_ traversabilityMap);
          info_length_y := vy (length_ traversabilityMap);
          info_pose := pose |} |}.

Definition updateServiceCallback (polls : nat) (env : Env)
           (response : GetGridMapInfoResponse) : M (Outcome GetGridMapInfoResponse) :=
  updateDuration <- gets (@updateDuration_ E) ;;
  updated <- (if isZero updateDuration then updateTraversability env else ret true) ;;
  if negb updated then ret (Returned false response)
  else
    ready <- waitUntilInitialized polls ;;
    if ready then
      e <- gets (@traversabilityMap_ E) ;;
      ret (Returned true (fillInfo env e response))
    else ret Hung.

(** *** [updateParameter] *)

Definition updateParameter (env : Env) (response : unit) : M (Outcome unit) :=
  package <- gets (@package_ E) ;;
  robot <- gets (@robot_ E) ;;
  let path := getPath env package in
  let path_filter_parameter := (path ++ "/config/" ++ robot ++ "_filter_parameter.yaml")%string in
  let path_footprint_parameter := (path ++ "/config/" ++ robot ++ "_footprint_parameter.yaml")%string in
  let command_filter :=
    ("rosparam load " ++ path_filter_parameter ++ " /traversability_estimation")%string in
  emit (CallSystem command_filter) ;;;
  if negb (Z.eqb (system env command_filter) 0) then ret (Returned false response)
  else
    let command_footprint :=
      ("rosparam load " ++ path_footprint_parameter ++ " /traversability_estimation")%string in
    emit (CallSystem command_footprint) ;;;
    if negb (Z.eqb (system env command_footprint) 0) then ret (Returned false response)
    else
      ok <- engineRun CallUpdateFilter TraversabilityMap.updateFilter ;;
      if negb ok then ret (Returned false response) else ret (Returned true response).

(** *** [traversabilityFootprint] *)

Definition traversabilityFootprint (response : unit) : M (Outcome unit) :=
  yaw <- gets (@footprintYaw_ E) ;;
  ok <- engineRun (CallTraversabilityFootprint yaw) (TraversabilityMap.traversabilityFootprint yaw) ;;
  if negb ok then ret (Returned false response) else ret (Returned true response).

(** *** [checkFootprintPath] *)

(** The [for] loop over [request.path]: [path] takes the elements of the
    request in order, [result] is the one variable handed to every check,
    [response] is [response.result].  The first failing check returns
    [false] at once. *)
Fixpoint checkFootprintPathLoop (paths : list Path) (result : Result)
         (response : list Result) : M (bool * list Result) :=
  match paths with
  | [] => ret (true, response)
  | path :: rest =>
      r <- engineRun (CallCheckFootprintPath path)
             (fun e => let '(ok, result', e') :=
                         TraversabilityMap.checkFootprintPath path result true e in
                       ((ok, result'), e')) ;;
      if negb (fst r) then ret (false, response)
      else checkFootprintPathLoop rest (snd r) (response ++ [snd r])
  end.

Definition checkFootprintPath (request : CheckFootprintPathRequest Path)
           (response : CheckFootprintPathResponse Result)
  : M (Outcome (CheckFootprintPathResponse Result)) :=
  let nPaths := List.length (cfp_path request) in
  if Nat.eqb nPaths 0 then ret (Returned false response)
  else
    r <- checkFootprintPathLoop (cfp_path request) TraversabilityMap.defaultResult
           (cfp_result response) ;;
    ret (Returned (fst r) {| cfp_result := snd r |}).

(** *** [getTraversabilityMap] *)

Definition getTraversabilityMap (request : GetGridMapRequest) (response : GetGridMapResponse)
  : M (Outcome GetGridMapResponse) :=
  let requestedSubmapPosition :=
    {| vx := req_position_x request; vy := req_position_y request |} in
  let requestedSubmapLength :=
    {| vx := req_length_x request; vy := req_length_y request |} in
  map <- gets (fun st => TraversabilityMap.getTraversabilityMap (traversabilityMap_ st)) ;;
  let subMap := fst (getSubmap map requestedSubmapPosition requestedSubmapLength) in
  let isSuccess := snd (getSubmap map requestedSubmapPosition requestedSubmapLength) in
  match req_layers request with
  | [] => ret (Returned isSuccess {| resp_map := toMessage subMap |})
  | _ :: _ =>
      let layers := req_layers request in
      match toMessageLayers subMap layers with
      | None => ret Threw
      | Some msg => ret (Returned isSuccess {| resp_map := msg |})
      end
  end.

(** *** [saveToBag] *)

Definition saveToBagService (env : Env) (response : unit) : M (Outcome unit) :=
  map <- gets (fun st => TraversabilityMap.getTraversabilityMap (traversabilityMap_ st)) ;;
  path <- gets (@pathToSaveBag_ E) ;;
  topic <- gets (@bagTopicName_ E) ;;
  emit (CallSaveToBag map path topic) ;;;
  ret (Returned (saveToBag env map path topic) response).

(** ** The node as a state machine *)

(** The acquisition mode is what [getImageCallback_] encodes. *)
Inductive AcquisitionMode : Type := PULL | PUSH.

Definition mode (st : Node) : AcquisitionMode :=
  if getImageCallback_ st then PUSH else PULL.

(** One event is one callback invocation with its arguments. *)
Inductive Event : Type :=
| EvImage (image : Image)
| EvUpdateTimer (env : Env)
| EvUpdateService (polls : nat) (env : Env)
| EvLoadElevationMap (env : Env)
| EvGetTraversabilityMap (request : GetGridMapRequest)
| EvCheckFootprintPath (request : CheckFootprintPathRequest Path)
| EvUpdateParameter (env : Env)
| EvTraversabilityFootprint
| EvSaveToBag (env : Env).

(** roscpp hands every service callback a default-constructed response. *)
Definition step (ev : Event) (st : Node) : Node * list Call :=
  match ev with
  | EvImage image => let r := imageCallback image st in (after r, calls r)
  | EvUpdateTimer env => let r := updateTimerCallback env st in (after r, calls r)
  | EvUpdateService polls env =>
      let r := updateServiceCallback polls env
                 {| resp_info := defaultGridMapInfo |} st in (after r, calls r)
  | EvLoadElevationMap env => let r := loadElevationMap env tt st in (after r, calls r)
  | EvGetTraversabilityMap request =>
      let r := getTraversabilityMap request {| resp_map := defaultGridMapMsg |} st in
      (after r, calls r)
  | EvCheckFootprintPath request =>
      let r := checkFootprintPath request {| cfp_result := [] |} st in (after r, calls r)
  | EvUpdateParameter env => let r := updateParameter env tt st in (after r, calls r)
  | EvTraversabilityFootprint => let r := traversabilityFootprint tt st in (after r, calls r)
  | EvSaveToBag env => let r := saveToBagService env tt st in (after r, calls r)
  end.

(** The states the node goes through, the first one included. *)
Fixpoint trajectory (st : Node) (events : list Event) : list Node :=
  match events with
  | [] => [st]
  | ev :: rest => st :: trajectory (fst (step ev st)) rest
  end.

Fixpoint run (st : Node) (events : list Event) : Node :=
  match events with
  | [] => st
  | ev :: rest => run (fst (step ev st)) rest
  end.

Definition isImage (ev : Event) : bool :=
  match ev with EvImage _ => true | _ => false end.

Definition modeEqb (a b : AcquisitionMode) : bool :=
  match a, b with
  | PULL, PULL | PUSH, PUSH => true
  | _, _ => false
  end.

(** Number of positions of a sequence of modes where the mode changes. *)
Fixpoint modeChanges (modes : list AcquisitionMode) : nat :=
  match modes with
  | a :: ((b :: _) as rest) => (if modeEqb a b then 0 else 1) + modeChanges rest
  | _ => 0
  end.

End TraversabilityEstimation.

(** The checks of a batch of footprint paths, in input order: starting from
    engine [e] and result variable [r], every path of [paths] is checked
    successfully, the i-th element of [results] is what the check of the i-th
    path left in the result variable, and the engine and the variable end up
    as [e'] and [r']. *)
Inductive ChecksInOrder {E Path Result : Type} {engine : TraversabilityMap.Ops E Path Result}
  : E -> Result -> list Path -> list Result -> E -> Result -> Prop :=
| ChecksNil : forall e r, ChecksInOrder e r [] [] e r
| ChecksCons : forall e r path paths r1 e1 results e' r',
    TraversabilityMap.checkFootprintPath path r true e = (true, r1, e1) ->
    ChecksInOrder e1 r1 paths results e' r' ->
    ChecksInOrder e r (path :: paths) (r1 :: results) e' r'.

(** ** A reference instance

    Concrete collaborators on which the node can be evaluated. *)
Module Reference.

(** A footprint path: the poses to check and the footprint radius. *)
Record PathMsg : Type := mkPathMsg { path_poses : list Pose; path_radius : Q }.

(** A traversability result. *)
Record ResultMsg : Type := mkResultMsg { is_safe : bool; traversability : Q; area : Q }.

Record EngineState : Type := mkEngineState {
  elevationInput : option GridMapMsg;
  traversabilityPayload : option GridMap;
  mapFrameId : string
}.

Definition matrixSize (ds : list Matrix) : Size :=
  match ds with
  | [] => (0, 0)%nat
  | d :: _ => (List.length d, match d with [] => 0%nat | row :: _ => List.length row end)
  end.

(** The grid map a message describes. *)
Definition fromMessage (msg : GridMapMsg) : GridMap :=
  {| frameId_ := frame_id (info_header (msg_info msg));
     timestamp_ := stamp (info_header (msg_info msg));
     layers_ := combine (msg_layers msg) (msg_data msg);
     length_ := {| vx := info_length_x (msg_info msg); vy := info_length_y (msg_info msg) |};
     resolution_ := info_resolution (msg_info msg);
     position_ := {| vx := point_x (pose_position (info_pose (msg_info msg)));
                     vy := point_y (pose_position (info_pose (msg_info msg))) |};
     size_ := matrixSize (msg_data msg) |}.

Definition compute (e : EngineState) : bool * EngineState :=
  match elevationInput e with
  | None => (false, e)
  | Some msg =>
      if exists_ "elevation" (fromMessage msg)
      then (true, {| elevationInput := elevationInput e;
                     traversabilityPayload :=
                       Some (addConstant "traversability" 1 (fromMessage msg));
                     mapFrameId := mapFrameId e |})
      else (false, e)
  end.

Definition ready (e : EngineState) : bool :=
  match traversabilityPayload e with Some _ => true | None => false end.

Definition payload (e : EngineState) : GridMap :=
  match traversabilityPayload e with Some m => m | None => emptyGridMap [] end.

Definition checkPath (path : PathMsg) (result : ResultMsg) (publish : bool)
           (e : EngineState) : bool * ResultMsg * EngineState :=
  match traversabilityPayload e, path_poses path with
  | Some _, _ :: _ =>
      (true, {| is_safe := true; traversability := 1; area := path_radius path |}, e)
  | _, _ => (false, result, e)
  end.

(** Modelled from the spec: the engine ([TraversabilityMap], whose source
    file is not part of the sources at hand), after the capability contract
    of the traversability engine: setting the elevation input replaces it
    wholesale, compute derives the traversability payload from the current
    input and leaves the previous payload untouched on failure, the engine
    is ready once a compute has succeeded. *)
#[global] Instance engine : TraversabilityMap.Ops EngineState PathMsg ResultMsg := {|
  TraversabilityMap.setElevationMap := fun msg e =>
    {| elevationInput := Some msg; traversabilityPayload := traversabilityPayload e;
       mapFrameId := mapFrameId e |};
  TraversabilityMap.computeTraversability := compute;
  TraversabilityMap.traversabilityMapInitialized := ready;
  TraversabilityMap.getTraversabilityMap := payload;
  TraversabilityMap.getMapFrameId := mapFrameId;
  TraversabilityMap.checkFootprintPath := checkPath;
  TraversabilityMap.traversabilityFootprint := fun _ e => (ready e, e);
  TraversabilityMap.updateFilter := fun e => (true, e);
  TraversabilityMap.defaultResult := {| is_safe := false; traversability := 0; area := 0 |}
|}.

Fixpoint rowsOf (rows cols : nat) (cells : list Q) : Matrix :=
  match rows with
  | O => []
  | S rows' => firstn cols cells :: rowsOf rows' cols (skipn cols cells)
  end.

Definition insideMap (m : GridMap) (p : Position) : bool :=
  Qle_bool (vx (position_ m) - vx (length_ m) / 2) (vx p)
  && Qle_bool (vx p) (vx (position_ m) + vx (length_ m) / 2)
  && Qle_bool (vy (position_ m) - vy (length_ m) / 2) (vy p)
  && Qle_bool (vy p) (vy (position_ m) + vy (length_ m) / 2).

(** A plain stand-in for the grid map library: an image fixes a geometry of
    one cell per pixel, 8-bit grey values are scaled linearly into the
    height range, and a submap is the whole map whenever the requested
    position lies inside it. *)
#[global] Instance library : GridMapLibrary := {|
  initializeFromImage := fun image resolution position m =>
    {| frameId_ := frame_id (img_header image);
       timestamp_ := stamp (img_header image);
       layers_ := map (fun ld => (fst ld, constant (img_height image) (img_width image) 0))
                      (layers_ m);
       length_ := {| vx := resolution * inject_Z (Z.of_nat (img_height image));
                     vy := resolution * inject_Z (Z.of_nat (img_width image)) |};
       resolution_ := resolution;
       position_ := position;
       size_ := (img_height image, img_width image) |};
  imageToMatrix := fun image lower upper =>
    if String.eqb (img_encoding image) "mono8"
    then Some (rowsOf (img_height image) (img_width image)
                 (map (fun v => lower + (upper - lower) * (inject_Z v / 255))
                      (img_data image)))
    else None;
  submapGeometry := fun m position length =>
    if insideMap m position then Some (geometry m) else None;
  submapBlock := fun _ _ d => d
|}.

Definition params (rate : Q) : Params :=
  {| p_submap_service := "/get_grid_map"; p_min_update_rate := rate;
     p_image_topic := "/image_elevation"; p_resolution := 3 # 100;
     p_min_height := 0; p_max_height := 1;
     p_image_position_x := 0; p_image_position_y := 0;
     p_robot_frame_id := "robot"; p_robot := "robot";
     p_package := "traversability_estimation";
     p_map_center_x := 0; p_map_center_y := 0;
     p_map_length_x := 5; p_map_length_y := 5;
     p_footprint_yaw := 157 # 100;
     p_elevation_map_topic := "grid_map";
     p_load_path_to_bag := "elevation_map.bag";
     p_save_path_to_bag := "traversability_map.bag" |}.

Definition engine0 : EngineState :=
  {| elevationInput := None; traversabilityPayload := None; mapFrameId := "map" |}.

(** A 2 x 2 grey image. *)
Definition image : Image :=
  {| img_header := {| stamp := 7; frame_id := "map" |};
     img_height := 2; img_width := 2; img_encoding := "mono8";
     img_data := [0; 255; 51; 102]%Z |}.

(** An elevation payload with the elevation layer only. *)
Definition elevationOnly : GridMap :=
  {| frameId_ := "map"; timestamp_ := 3;
     layers_ := [("elevation", [[1; 2]; [3; 4]])];
     length_ := {| vx := 2; vy := 2 |}; resolution_ := 1;
     position_ := zero2; size_ := (2, 2)%nat |}.

(** An environment in which the provider exists, the transform resolves
    to [(1, 2)] when [tfOk] holds, the provider answers with
    [elevationOnly] extended by the two bound layers, and the bag holds
    [elevationOnly]. *)
Definition env (tfOk : bool) : Env :=
  {| now := 42;
     waitForExistence := fun _ _ => true;
     transformPoint := fun target p =>
       if tfOk
       then Some {| ps_header := {| stamp := 0; frame_id := target |};
                    ps_point := {| point_x := 1; point_y := 2; point_z := 0 |} |}
       else None;
     callGetGridMap := fun _ _ =>
       Some {| resp_map :=
                 toMessage (addConstant "lower_bound" 0
                              (addConstant "upper_bound" 0 elevationOnly)) |};
     loadFromBag := fun _ _ => Some elevationOnly;
     saveToBag := fun _ _ _ => true;
     getPath := fun _ => "/opt/traversability_estimation";
     system := fun _ => 0%Z |}.

Definition pose0 : Pose :=
  {| pose_position := defaultPoint;
     pose_orientation := {| quat_x := 0; quat_y := 0; quat_z := 0; quat_w := 1 |} |}.

Definition goodPath (radius : Q) : PathMsg :=
  {| path_poses := [pose0]; path_radius := radius |}.

Definition emptyPath : PathMsg := {| path_poses := []; path_radius := 1 |}.

(** The node right after construction, for a given update rate. *)
Definition node0 (rate : Q) : Node EngineState := construct (params rate) engine0.

(** The node after one successful on-demand update. *)
Definition updated : Node EngineState :=
  Eval vm_compute in after (updateTraversability (env true) (node0 0)).

(** A request centred on the map, and one far outside of it. *)
Definition insideRequest (layers : list string) : GetGridMapRequest :=
  {| req_frame_id := ""; req_position_x := 0; req_position_y := 0;
     req_length_x := 1; req_length_y := 1; req_layers := layers |}.

Definition outsideRequest (layers : list string) : GetGridMapRequest :=
  {| req_frame_id := ""; req_position_x := 10; req_position_y := 10;
     req_length_x := 1; req_length_y := 1; req_layers := layers |}.

End Reference.


(** ** Vocabulary of the properties *)

(** The layers every elevation map must carry, as the constructor pushes them. *)
Definition requiredLayers : list string := ["elevation"; "upper_bound"; "lower_bound"].


Section Vocabulary.
Context {lib : GridMapLibrary}.
Context {E Path Result : Type}.
Context {engine : TraversabilityMap.Ops E Path Result}.

(** The members that are written by the constructor only. *)
Definition config (st : Node E) :=
  (submapServiceName_ st, updateDuration_ st, imageTopic_ st, imageResolution_ st,
   imageMinHeight_ st, imageMaxHeight_ st, imagePosition_ st, robotFrameId_ st,
   robot_ st, package_ st, frame_id (ps_header (submapPoint_ st)),
   ps_point (submapPoint_ st), mapLength_ st, footprintYaw_ st, bagTopicName_ st,
   pathToLoadBag_ st, pathToSaveBag_ st, elevationMapLayers_ st, updateTimer_ st).

(** The members written by [imageCallback] only. *)
Definition imageState (st : Node E) : bool * GridMap :=
  (getImageCallback_ st, imageGridMap_ st).

(** [m] keeps the property [P] of the node. *)
Definition Maintains (P : Node E -> Prop) {A : Type} (m : M E Path A) : Prop :=
  forall st, P st -> P (after (m st)).

(** [submapPoint_] with the time stamp [requestElevationMap] gives it. *)
Definition stampedSubmapPoint (st : Node E) : PointStamped :=
  {| ps_header := {| stamp := 0; frame_id := frame_id (ps_header (submapPoint_ st)) |};
     ps_point := ps_point (submapPoint_ st) |}.

(** The pull request [requestElevationMap] builds from a transformed point. *)
Definition pullRequest (st : Node E) (transformed : PointStamped) : GetGridMapRequest :=
  {| req_frame_id := "";
     req_position_x := point_x (ps_point transformed);
     req_position_y := point_y (ps_point transformed);
     req_length_x := vx (mapLength_ st);
     req_length_y := vy (mapLength_ st);
     req_layers := elevationMapLayers_ st |}.

Definition isPullRequest (c : Call Path) : bool :=
  match c with CallGetGridMap _ _ => true | _ => false end.

Definition isSetElevationMap (c : Call Path) : bool :=
  match c with CallSetElevationMap _ => true | _ => false end.

Definition isComputeTraversability (c : Call Path) : bool :=
  match c with CallComputeTraversability => true | _ => false end.

(** Properties of the node that do not look at the engine, at the time stamp
    of [submapPoint_], or at the members written by [imageCallback]. *)
Definition EngineFree (P : Node E -> Prop) : Prop :=
  forall e st, P st -> P (setTraversabilityMap e st).

Definition StampFree (P : Node E -> Prop) : Prop :=
  forall st, P st -> P (setSubmapPoint (stampedSubmapPoint st) st).

Definition ImageFree (P : Node E -> Prop) : Prop :=
  (forall m st, P st -> P (setImageGridMap m st)) /\
  (forall st, P st -> P (setGetImageCallback true st)).

(** The grid map the first image leaves in [imageGridMap_] before its
    elevation layer is added. *)
Definition firstFrameMap (image : Image) (st : Node E) : GridMap :=
  let m0 := initializeFromImage image (imageResolution_ st) (imagePosition_ st)
              (imageGridMap_ st) in
  let bounds := addConstant "lower_bound" 0 (addConstant "upper_bound" 0 m0) in
  let zeros := constant (fst (size_ m0)) (snd (size_ m0)) 0 in
  add "uncertainty_range" (msub zeros zeros) bounds.

(** [imageGridMap_] after [imageCallback]. *)
Definition accumulated (image : Image) (st : Node E) : GridMap :=
  snd (addLayerFromImage image "elevation"
         (if getImageCallback_ st then imageGridMap_ st else firstFrameMap image st)
         (imageMinHeight_ st) (imageMaxHeight_ st)).

(** The calls made while a sequence of events is handled, in order. *)
Fixpoint allCalls (st : Node E) (events : list (Event (Path := Path))) : list (Call Path) :=
  match events with
  | [] => []
  | ev :: rest => snd (step ev st) ++ allCalls (fst (step ev st)) rest
  end.

Definition noteElevationMap (last : option GridMapMsg) (c : Call Path) : option GridMapMsg :=
  match c with CallSetElevationMap msg => Some msg | _ => last end.

(** The elevation map the engine was handed last, if any. *)
Definition lastElevationMap (cs : list (Call Path)) : option GridMapMsg :=
  fold_left noteElevationMap cs None.

(** Images and update triggers (timer or update service). *)
Definition isAcquisition (ev : Event (Path := Path)) : bool :=
  match ev with
  | EvImage _ | EvUpdateTimer _ | EvUpdateService _ _ => true
  | _ => false
  end.

End Vocabulary.


(** ** Vocabulary of the further properties *)

Section FurtherVocabulary.
Context {E Path Result : Type}.

(** The two shell commands [updateParameter] runs. *)
Definition filterCommand (env : Env) (st : Node E) : string :=
  ("rosparam load "
   ++ (getPath env (package_ st) ++ "/config/" ++ robot_ st ++ "_filter_parameter.yaml")
   ++ " /traversability_estimation")%string.

Definition footprintCommand (env : Env) (st : Node E) : string :=
  ("rosparam load "
   ++ (getPath env (package_ st) ++ "/config/" ++ robot_ st ++ "_footprint_parameter.yaml")
   ++ " /traversability_estimation")%string.

Definition isTransformRequest (c : Call Path) : bool :=
  match c with CallTransformPoint _ _ => true | _ => false end.

(** The required layers a loaded map lacks, in the order they are added. *)
Definition missingLayers (layers : list string) (map : GridMap) : list string :=
  filter (fun layer => negb (exists_ layer map)) layers.

End FurtherVocabulary.

(** Further environments and requests for the reference instance. *)
Module ReferenceCases.
Import Reference.

(** The submap service does not come up. *)
Definition envNoProvider : Env :=
  {| now := now (env true);
     waitForExistence := fun _ _ => false;
     transformPoint := transformPoint (env true);
     callGetGridMap := callGetGridMap (env true);
     loadFromBag := loadFromBag (env true);
     saveToBag := saveToBag (env true);
     getPath := getPath (env true);
     system := system (env true) |}.

(** The submap service exists but its call fails. *)
Definition envCallFails : Env :=
  {| now := now (env true);
     waitForExistence := waitForExistence (env true);
     transformPoint := transformPoint (env true);
     callGetGridMap := fun _ _ => None;
     loadFromBag := loadFromBag (env true);
     saveToBag := saveToBag (env true);
     getPath := getPath (env true);
     system := system (env true) |}.

(** Loading the footprint parameters fails with exit status 1. *)
Definition envFootprintLoadFails : Env :=
  {| now := now (env true);
     waitForExistence := waitForExistence (env true);
     transformPoint := transformPoint (env true);
     callGetGridMap := callGetGridMap (env true);
     loadFromBag := loadFromBag (env true);
     saveToBag := saveToBag (env true);
     getPath := getPath (env true);
     system := fun command =>
       if String.eqb command
            "rosparam load /opt/traversability_estimation/config/robot_footprint_parameter.yaml /traversability_estimation"
       then 1%Z else 0%Z |}.

(** The node after one image. *)
Definition pushed : Node EngineState :=
  Eval vm_compute in after (imageCallback image (node0 1)).

(** An image that does not have the size of the accumulated map. *)
Definition wideImage : Image :=
  {| img_header := {| stamp := 9; frame_id := "map" |};
     img_height := 2; img_width := 3; img_encoding := "mono8";
     img_data := [0; 1; 2; 3; 4; 5]%Z |}.




(** Callbacks other than the image callback. *)
Definition otherEvents : list (@Event PathMsg) :=
  [EvUpdateTimer (env true); EvLoadElevationMap (env true); EvUpdateParameter (env true)].

(** Images and an update after the first image. *)
Definition laterEvents : list (@Event PathMsg) :=
  [EvImage wideImage; EvUpdateTimer (env true); EvImage image].

End ReferenceCases.

(** * Properties *)

(** ** The grid map container *)

Lemma lookup_replace_same : forall layer data ls d0,
  lookup layer ls = Some d0 -> lookup layer (replace layer data ls) = Some data.
Proof.
  induction ls as [|[l d] ls IH]; simpl; intros d0 H; [discriminate|].
  destruct (String.eqb l layer) eqn:Heq; simpl; rewrite Heq; eauto.
Qed.

Lemma lookup_replace_other : forall layer data other ls,
  other <> layer -> lookup other (replace layer data ls) = lookup other ls.
Proof.
  induction ls as [|[l d] ls IH]; simpl; intros Hne; [reflexivity|].
  destruct (String.eqb l layer) eqn:Heq; simpl.
  - apply String.eqb_eq in Heq; subst l.
    destruct (String.eqb layer other) eqn:Ho; [|reflexivity].
    apply String.eqb_eq in Ho; congruence.
  - rewrite IH by assumption; reflexivity.
Qed.

Lemma lookup_app_new : forall layer data ls,
  lookup layer ls = None -> lookup layer (ls ++ [(layer, data)]) = Some data.
Proof.
  induction ls as [|[l d] ls IH]; simpl; intros H.
  - rewrite String.eqb_refl; reflexivity.
  - destruct (String.eqb l layer); [discriminate|auto].
Qed.

Lemma lookup_app_other : forall layer data other ls,
  other <> layer -> lookup other (ls ++ [(layer, data)]) = lookup other ls.
Proof.
  induction ls as [|[l d] ls IH]; simpl; intros Hne.
  - destruct (String.eqb layer other) eqn:Ho; [|reflexivity].
    apply String.eqb_eq in Ho; congruence.
  - rewrite IH by assumption; reflexivity.
Qed.

Lemma replace_names : forall layer data ls,
  map fst (replace layer data ls) = map fst ls.
Proof.
  induction ls as [|[l d] ls IH]; simpl; [reflexivity|].
  destruct (String.eqb l layer); simpl; congruence.
Qed.

Lemma get_add_same : forall layer data m, get layer (add layer data m) = Some data.
Proof.
  intros layer data m; unfold get, add, exists_, get; simpl.
  destruct (lookup layer (layers_ m)) eqn:H.
  - eapply lookup_replace_same; eassumption.
  - apply lookup_app_new; assumption.
Qed.

Lemma get_add_other : forall layer data other m,
  other <> layer -> get other (add layer data m) = get other m.
Proof.
  intros layer data other m Hne; unfold get, add, exists_, get; simpl.
  destruct (lookup layer (layers_ m)).
  - apply lookup_replace_other; assumption.
  - apply lookup_app_other; assumption.
Qed.

Lemma geometry_add : forall layer data m, geometry (add layer data m) = geometry m.
Proof. reflexivity. Qed.

Lemma timestamp_add : forall layer data m, timestamp_ (add layer data m) = timestamp_ m.
Proof. reflexivity. Qed.

Lemma exists_add_same : forall layer data m, exists_ layer (add layer data m) = true.
Proof. intros; unfold exists_; rewrite get_add_same; reflexivity. Qed.

Lemma exists_add_other : forall layer data other m,
  other <> layer -> exists_ other (add layer data m) = exists_ other m.
Proof. intros; unfold exists_; rewrite get_add_other by assumption; reflexivity. Qed.

Lemma zipWith_repeat : forall (A B C : Type) (f : A -> B -> C) a b n,
  zipWith f (repeat a n) (repeat b n) = repeat (f a b) n.
Proof. induction n; simpl; congruence. Qed.

(** Two zero-filled layers of one size differ by a zero-filled layer. *)
Lemma msub_zero : forall rows cols,
  msub (constant rows cols 0) (constant rows cols 0) = constant rows cols 0.
Proof.
  intros; unfold msub, constant.
  rewrite zipWith_repeat, zipWith_repeat; reflexivity.
Qed.

Section Properties.
Context {lib : GridMapLibrary}.
Context {E Path Result : Type}.
Context {engine : TraversabilityMap.Ops E Path Result}.

Abbreviation Node := (Node E).
Abbreviation M := (M E Path).
Abbreviation Call := (Call Path).

(** ** The monad *)

Lemma bind_value : forall (A B : Type) (m : M A) (k : A -> M B) st,
  value (bind m k st) = value (k (value (m st)) (after (m st))).
Proof.
  intros; unfold bind, value, after.
  destruct (m st) as [[a s] c]; simpl.
  destruct (k a s) as [[b s'] c']; reflexivity.
Qed.

Lemma bind_after : forall (A B : Type) (m : M A) (k : A -> M B) st,
  after (bind m k st) = after (k (value (m st)) (after (m st))).
Proof.
  intros; unfold bind, value, after.
  destruct (m st) as [[a s] c]; simpl.
  destruct (k a s) as [[b s'] c']; reflexivity.
Qed.

Lemma bind_calls : forall (A B : Type) (m : M A) (k : A -> M B) st,
  calls (bind m k st) = calls (m st) ++ calls (k (value (m st)) (after (m st))).
Proof.
  intros; unfold bind, value, after, calls.
  destruct (m st) as [[a s] c]; simpl.
  destruct (k a s) as [[b s'] c']; reflexivity.
Qed.

Lemma maintains_ret : forall P (A : Type) (a : A), Maintains P (ret a : M A).
Proof. intros P A a st H; exact H. Qed.

Lemma maintains_gets : forall P (A : Type) (f : Node -> A), Maintains P (gets f : M A).
Proof. intros P A f st H; exact H. Qed.

Lemma maintains_emit : forall P (c : Call), Maintains P (emit c : M unit).
Proof. intros P c st H; exact H. Qed.

Lemma maintains_modify : forall (P : Node -> Prop) (f : Node -> Node),
  (forall st, P st -> P (f st)) -> Maintains P (modify f : M unit).
Proof. intros P f Hf st H; apply Hf; exact H. Qed.

Lemma maintains_bind : forall P (A B : Type) (m : M A) (k : A -> M B),
  Maintains P m -> (forall a, Maintains P (k a)) -> Maintains P (bind m k).
Proof.
  intros P A B m k Hm Hk st H; rewrite bind_after; apply Hk, Hm, H.
Qed.

Ltac maintain :=
  repeat match goal with
  | |- Maintains _ (bind _ _) => apply maintains_bind; [ | intro ]
  | |- Maintains _ (ret _) => apply maintains_ret
  | |- Maintains _ (gets _) => apply maintains_gets
  | |- Maintains _ (emit _) => apply maintains_emit
  | |- Maintains _ (modify _) => apply maintains_modify; solve [auto]
  | |- Maintains _ (if ?c then _ else _) => destruct c
  | |- Maintains _ (match ?c with _ => _ end) => destruct c
  end.

Section Maintenance.
Variable P : Node -> Prop.

Lemma maintains_engineSetElevationMap : forall msg,
  EngineFree P -> Maintains P (engineSetElevationMap msg).
Proof. intros msg HE; unfold engineSetElevationMap; maintain. Qed.

Lemma maintains_engineRun : forall (A : Type) (c : Call) (f : E -> A * E),
  EngineFree P -> Maintains P (engineRun c f).
Proof. intros A c f HE; unfold engineRun; maintain. Qed.

Lemma maintains_requestElevationMap : forall env map,
  StampFree P -> Maintains P (requestElevationMap env map).
Proof.
  intros env map HS; unfold requestElevationMap.
  apply maintains_bind; [apply maintains_modify; exact HS | intro].
  maintain.
Qed.

Lemma maintains_updateTraversability : forall env,
  EngineFree P -> StampFree P -> Maintains P (updateTraversability env).
Proof.
  intros env HE HS; unfold updateTraversability, engineComputeTraversability; cbv zeta.
  repeat first
    [ apply maintains_requestElevationMap; assumption
    | apply maintains_engineSetElevationMap; assumption
    | apply maintains_engineRun; assumption
    | progress maintain ].
Qed.

Lemma maintains_updateTimerCallback : forall env,
  EngineFree P -> StampFree P -> Maintains P (updateTimerCallback env).
Proof.
  intros env HE HS; unfold updateTimerCallback.
  apply maintains_bind; [apply maintains_updateTraversability; assumption | intro].
  apply maintains_ret.
Qed.

Lemma maintains_waitUntilInitialized : forall polls, Maintains P (waitUntilInitialized polls).
Proof. induction polls; simpl; maintain; assumption. Qed.

Lemma maintains_updateServiceCallback : forall polls env response,
  EngineFree P -> StampFree P -> Maintains P (updateServiceCallback polls env response).
Proof.
  intros polls env response HE HS; unfold updateServiceCallback.
  repeat first
    [ apply maintains_updateTraversability; assumption
    | apply maintains_waitUntilInitialized
    | progress maintain ].
Qed.

Lemma maintains_loadElevationMap : forall env response,
  EngineFree P -> Maintains P (loadElevationMap env response).
Proof.
  intros env response HE; unfold loadElevationMap, engineComputeTraversability.
  repeat first
    [ apply maintains_engineSetElevationMap; assumption
    | apply maintains_engineRun; assumption
    | progress maintain ].
Qed.

Lemma maintains_updateParameter : forall env response,
  EngineFree P -> Maintains P (updateParameter env response).
Proof.
  intros env response HE; unfold updateParameter; cbv zeta.
  repeat first [ apply maintains_engineRun; assumption | progress maintain ].
Qed.

Lemma maintains_traversabilityFootprint : forall response,
  EngineFree P -> Maintains P (traversabilityFootprint response).
Proof.
  intros response HE; unfold traversabilityFootprint.
  repeat first [ apply maintains_engineRun; assumption | progress maintain ].
Qed.

Lemma maintains_checkFootprintPathLoop : forall paths result response,
  EngineFree P -> Maintains P (checkFootprintPathLoop paths result response).
Proof.
  intros paths result response HE; revert result response.
  induction paths as [|path rest IH]; intros result response; simpl.
  - apply maintains_ret.
  - apply maintains_bind; [apply maintains_engineRun; assumption | intro r].
    destruct (negb (fst r)); [apply maintains_ret | apply IH].
Qed.

Lemma maintains_checkFootprintPath : forall request response,
  EngineFree P -> Maintains P (checkFootprintPath request response).
Proof.
  intros request response HE; unfold checkFootprintPath; cbv zeta.
  repeat first [ apply maintains_checkFootprintPathLoop; assumption | progress maintain ].
Qed.

Lemma maintains_getTraversabilityMap : forall request response,
  Maintains P (getTraversabilityMap request response).
Proof. intros; unfold getTraversabilityMap; cbv zeta; maintain. Qed.

Lemma maintains_saveToBagService : forall env response,
  Maintains P (saveToBagService env response).
Proof. intros; unfold saveToBagService; maintain. Qed.

Lemma maintains_imageCallback : forall image,
  EngineFree P -> ImageFree P -> Maintains P (imageCallback image).
Proof.
  intros image HE [HM HF]; unfold imageCallback, initializeImageGridMap, onImageGridMap.
  repeat first [ apply maintains_engineSetElevationMap; assumption | progress maintain ].
Qed.

(** Every callback keeps a property that none of its assignments can break. *)
Lemma maintains_step : forall ev st,
  EngineFree P -> StampFree P -> ImageFree P -> P st -> P (fst (step ev st)).
Proof.
  intros ev st HE HS HI H; destruct ev; simpl.
  - apply maintains_imageCallback; assumption.
  - apply maintains_updateTimerCallback; assumption.
  - apply maintains_updateServiceCallback; assumption.
  - apply maintains_loadElevationMap; assumption.
  - apply maintains_getTraversabilityMap; assumption.
  - apply maintains_checkFootprintPath; assumption.
  - apply maintains_updateParameter; assumption.
  - apply maintains_traversabilityFootprint; assumption.
  - apply maintains_saveToBagService; assumption.
Qed.

(** The callbacks other than [imageCallback] need not be image-free. *)
Lemma maintains_other_step : forall ev st,
  isImage ev = false -> EngineFree P -> StampFree P -> P st -> P (fst (step ev st)).
Proof.
  intros ev st Hev HE HS H; destruct ev; simpl; try discriminate.
  - apply maintains_updateTimerCallback; assumption.
  - apply maintains_updateServiceCallback; assumption.
  - apply maintains_loadElevationMap; assumption.
  - apply maintains_getTraversabilityMap; assumption.
  - apply maintains_checkFootprintPath; assumption.
  - apply maintains_updateParameter; assumption.
  - apply maintains_traversabilityFootprint; assumption.
  - apply maintains_saveToBagService; assumption.
Qed.

Lemma maintains_run : forall events st,
  EngineFree P -> StampFree P -> ImageFree P -> P st -> P (run st events).
Proof.
  induction events as [|ev rest IH]; intros st HE HS HI H; simpl; [exact H|].
  apply IH; try assumption. apply maintains_step; assumption.
Qed.

End Maintenance.

(** ** What the callbacks compute *)

Lemma get_bounds_upper : forall m,
  get "upper_bound" (addConstant "lower_bound" 0 (addConstant "upper_bound" 0 m))
  = Some (constant (fst (size_ m)) (snd (size_ m)) 0).
Proof.
  intros m; unfold addConstant.
  rewrite get_add_other by discriminate. apply get_add_same.
Qed.

Lemma get_bounds_lower : forall m,
  get "lower_bound" (addConstant "lower_bound" 0 (addConstant "upper_bound" 0 m))
  = Some (constant (fst (size_ m)) (snd (size_ m)) 0).
Proof. intros m; unfold addConstant at 1; apply get_add_same. Qed.

Lemma initializeImageGridMap_eq : forall image st,
  (initializeImageGridMap image : M bool) st
  = (true, setGetImageCallback true (setImageGridMap (firstFrameMap image st) st), []).
Proof.
  intros image st.
  unfold initializeImageGridMap, onImageGridMap, bind, modify, gets, ret; simpl.
  rewrite get_bounds_upper, get_bounds_lower; simpl.
  reflexivity.
Qed.

Lemma setGetImageCallback_id : forall st : Node,
  getImageCallback_ st = true -> setGetImageCallback true st = st.
Proof. intros st H; destruct st; simpl in *; subst; reflexivity. Qed.

Lemma setSubmapPoint_id : forall st : Node,
  stamp (ps_header (submapPoint_ st)) = 0%Z ->
  setSubmapPoint (stampedSubmapPoint st) st = st.
Proof.
  intros st H; destruct st as [? ? ? ? ? ? ? ? ? ? ? [[s f] pt] ? ? ? ? ? ? ? ? ?].
  simpl in *; subst; reflexivity.
Qed.

(** [imageCallback] in one equation. *)
Lemma imageCallback_eq : forall image st,
  imageCallback image st
  = (Returned true tt,
     setTraversabilityMap
       (TraversabilityMap.setElevationMap (toMessage (accumulated image st))
          (traversabilityMap_ st))
       (setImageGridMap (accumulated image st) (setGetImageCallback true st)),
     [CallSetElevationMap (toMessage (accumulated image st))]).
Proof.
  intros image st; unfold imageCallback, accumulated.
  unfold bind at 1; unfold gets at 1; cbv iota beta.
  destruct (getImageCallback_ st) eqn:Hf; cbv iota beta; unfold negb.
  - unfold bind, ret, modify, gets, engineSetElevationMap, emit; simpl.
    destruct st; simpl in *; subst; reflexivity.
  - unfold bind at 1. rewrite initializeImageGridMap_eq; cbv iota beta.
    unfold bind, ret, modify, gets, engineSetElevationMap, emit; simpl.
    reflexivity.
Qed.

(** [updateTraversability] once an image has been received. *)
Lemma updateTraversability_push : forall env st,
  getImageCallback_ st = true ->
  updateTraversability env st
  = (fst (TraversabilityMap.computeTraversability (traversabilityMap_ st)),
     setTraversabilityMap
       (snd (TraversabilityMap.computeTraversability (traversabilityMap_ st))) st,
     [CallComputeTraversability]).
Proof.
  intros env st Hf; unfold updateTraversability; cbv zeta.
  unfold bind at 1; unfold gets at 1; cbv iota beta. rewrite Hf; unfold negb at 1.
  unfold engineComputeTraversability, engineRun, bind, ret, modify, gets, emit; simpl.
  destruct (fst (TraversabilityMap.computeTraversability (traversabilityMap_ st)));
    reflexivity.
Qed.

(** [updateTraversability] before any image has been received. *)
Lemma updateTraversability_pull : forall env st,
  getImageCallback_ st = false ->
  updateTraversability env st
  = let service := submapServiceName_ st in
    let frame := TraversabilityMap.getMapFrameId (traversabilityMap_ st) in
    let point := stampedSubmapPoint st in
    let st1 := setSubmapPoint point st in
    if waitForExistence env service 2 then
      match transformPoint env frame point with
      | None =>
          (false, st1, [CallWaitForExistence service 2; CallTransformPoint frame point])
      | Some transformed =>
          let request := pullRequest st transformed in
          match callGetGridMap env service request with
          | None =>
              (false, st1,
               [CallWaitForExistence service 2; CallTransformPoint frame point;
                CallGetGridMap service request])
          | Some response =>
              let e1 := TraversabilityMap.setElevationMap (resp_map response)
                          (traversabilityMap_ st) in
              (fst (TraversabilityMap.computeTraversability e1),
               setTraversabilityMap (snd (TraversabilityMap.computeTraversability e1)) st1,
               [CallWaitForExistence service 2; CallTransformPoint frame point;
                CallGetGridMap service request; CallSetElevationMap (resp_map response);
                CallComputeTraversability])
          end
      end
    else (false, st, [CallWaitForExistence service 2]).
Proof.
  intros env st Hf; unfold updateTraversability; cbv zeta.
  unfold bind at 1; unfold gets at 1; cbv iota beta. rewrite Hf; unfold negb at 1.
  unfold requestElevationMap, engineComputeTraversability, engineRun,
    engineSetElevationMap, bind, ret, modify, gets, emit; simpl.
  destruct (waitForExistence env (submapServiceName_ st) 2); simpl; [|reflexivity].
  fold (stampedSubmapPoint st).
  destruct (transformPoint env _ (stampedSubmapPoint st)) as [transformed|]; simpl;
    [|reflexivity].
  fold (pullRequest st transformed).
  destruct (callGetGridMap env _ (pullRequest st transformed)) as [response|]; simpl;
    [|reflexivity].
  destruct (fst (TraversabilityMap.computeTraversability _)); reflexivity.
Qed.

(** ** The acquisition mode *)

Lemma engineFree_flag : forall b, EngineFree (fun st : Node => getImageCallback_ st = b).
Proof. intros b e st H; exact H. Qed.

Lemma stampFree_flag : forall b, StampFree (fun st : Node => getImageCallback_ st = b).
Proof. intros b st H; exact H. Qed.

Lemma step_flag : forall ev st,
  getImageCallback_ (fst (step ev st)) = getImageCallback_ st || isImage ev.
Proof.
  intros ev st; destruct (isImage ev) eqn:Hev.
  - destruct ev; try discriminate; simpl.
    rewrite imageCallback_eq; simpl. symmetry; apply orb_true_r.
  - rewrite orb_false_r.
    apply maintains_other_step with (P := fun s => getImageCallback_ s = getImageCallback_ st);
      auto using engineFree_flag, stampFree_flag.
Qed.

Lemma run_flag : forall events st,
  getImageCallback_ (run st events) = getImageCallback_ st || existsb isImage events.
Proof.
  induction events as [|ev rest IH]; intros st; simpl.
  - symmetry; apply orb_false_r.
  - rewrite IH, step_flag, orb_assoc; reflexivity.
Qed.

Lemma trajectory_head : forall events st,
  exists rest, trajectory st events = st :: rest.
Proof. destruct events; simpl; eauto. Qed.

Lemma modeChanges_trajectory : forall events st,
  modeChanges (map mode (trajectory st events))
  = if getImageCallback_ st then 0%nat
    else if existsb isImage events then 1%nat else 0%nat.
Proof.
  induction events as [|ev rest IH]; intros st; simpl.
  - destruct (getImageCallback_ st); reflexivity.
  - specialize (IH (fst (step ev st))).
    destruct (trajectory_head rest (fst (step ev st))) as [tl Htl].
    rewrite Htl in *; simpl map in *.
    change (modeChanges (mode st :: mode (fst (step ev st)) :: map mode tl))
      with ((if modeEqb (mode st) (mode (fst (step ev st))) then 0 else 1)
            + modeChanges (mode (fst (step ev st)) :: map mode tl))%nat.
    rewrite IH; unfold mode; rewrite step_flag.
    destruct (getImageCallback_ st), (isImage ev), (existsb isImage rest); reflexivity.
Qed.

Lemma updateTimerCallback_calls : forall env st,
  calls (updateTimerCallback env st) = calls (updateTraversability env st).
Proof.
  intros; unfold updateTimerCallback; rewrite bind_calls; simpl. apply app_nil_r.
Qed.

Lemma waitUntilInitialized_eq : forall polls st,
  waitUntilInitialized polls st
  = (match polls with
     | O => false
     | S _ => TraversabilityMap.traversabilityMapInitialized (traversabilityMap_ st)
     end, st, []).
Proof.
  induction polls as [|polls IH]; intros st; simpl; [reflexivity|].
  unfold bind, gets; simpl.
  destruct (TraversabilityMap.traversabilityMapInitialized (traversabilityMap_ st)) eqn:Hi;
    [reflexivity|].
  rewrite IH, Hi. destruct polls; reflexivity.
Qed.

(** [updateServiceCallback] in one equation. *)
Lemma updateServiceCallback_eq : forall polls env response st,
  updateServiceCallback polls env response st
  = let u := if isZero (updateDuration_ st) then updateTraversability env st
             else (true, st, []) in
    if value u then
      match polls with
      | O => (Hung, after u, calls u)
      | S _ =>
          if TraversabilityMap.traversabilityMapInitialized (traversabilityMap_ (after u))
          then (Returned true (fillInfo env (traversabilityMap_ (after u)) response),
                after u, calls u)
          else (Hung, after u, calls u)
      end
    else (Returned false response, after u, calls u).
Proof.
  intros polls env response st; unfold updateServiceCallback.
  unfold bind at 1; unfold gets at 1; cbv iota beta zeta.
  unfold bind at 1.
  destruct (isZero (updateDuration_ st)).
  - destruct (updateTraversability env st) as [[ok st1] c1]; unfold value, after, calls; simpl.
    destruct ok; simpl; [|rewrite app_nil_r; reflexivity].
    unfold bind at 1; rewrite waitUntilInitialized_eq.
    destruct polls; simpl; [rewrite app_nil_r; reflexivity|].
    destruct (TraversabilityMap.traversabilityMapInitialized (traversabilityMap_ st1));
      simpl; rewrite app_nil_r; reflexivity.
  - unfold ret at 1; unfold value, after, calls; simpl.
    unfold bind at 1; rewrite waitUntilInitialized_eq.
    destruct polls; simpl; [reflexivity|].
    destruct (TraversabilityMap.traversabilityMapInitialized (traversabilityMap_ st));
      reflexivity.
Qed.

Lemma updateServiceCallback_calls : forall polls env response st,
  calls (updateServiceCallback polls env response st)
  = if isZero (updateDuration_ st) then calls (updateTraversability env st) else [].
Proof.
  intros; rewrite updateServiceCallback_eq; cbv zeta.
  destruct (isZero (updateDuration_ st)).
  - destruct (value (updateTraversability env st)); [|reflexivity].
    destruct polls; [reflexivity|].
    destruct (TraversabilityMap.traversabilityMapInitialized _); reflexivity.
  - unfold value, after, calls; simpl. destruct polls; [reflexivity|].
    destruct (TraversabilityMap.traversabilityMapInitialized _); reflexivity.
Qed.

Lemma engineFree_imageState : forall x, EngineFree (fun st : Node => imageState st = x).
Proof. intros x e st H; exact H. Qed.

Lemma stampFree_imageState : forall x, StampFree (fun st : Node => imageState st = x).
Proof. intros x st H; exact H. Qed.

(** In PUSH mode, while images and update triggers are handled, the
    elevation map the engine was handed last is the accumulated image map. *)
Lemma lastElevationMap_push : forall events (st : Node),
  forallb isAcquisition events = true ->
  getImageCallback_ st = true ->
  fold_left noteElevationMap (allCalls st events) (Some (toMessage (imageGridMap_ st)))
  = Some (toMessage (imageGridMap_ (run st events))).
Proof.
  induction events as [|ev rest IH]; intros st Hacq Hf; simpl; [reflexivity|].
  simpl in Hacq; apply andb_prop in Hacq; destruct Hacq as [Hev Hrest].
  rewrite fold_left_app.
  destruct ev; try discriminate; simpl.
  - rewrite imageCallback_eq; simpl.
    apply (IH (setTraversabilityMap
                 (TraversabilityMap.setElevationMap (toMessage (accumulated image st))
                    (traversabilityMap_ st))
                 (setImageGridMap (accumulated image st) (setGetImageCallback true st)))
              Hrest eq_refl).
  - assert (Hi : imageState (after (updateTimerCallback env st)) = imageState st).
    { apply maintains_updateTimerCallback with (P := fun s => imageState s = imageState st);
        auto using engineFree_imageState, stampFree_imageState. }
    injection Hi as Hflag Hmap.
    rewrite updateTimerCallback_calls, updateTraversability_push by assumption; simpl.
    rewrite <- Hmap. apply IH; [assumption | congruence].
  - assert (Hi : imageState (after (updateServiceCallback polls env
                                      {| resp_info := defaultGridMapInfo |} st))
                 = imageState st).
    { apply maintains_updateServiceCallback
        with (P := fun s => imageState s = imageState st);
        auto using engineFree_imageState, stampFree_imageState. }
    injection Hi as Hflag Hmap.
    rewrite updateServiceCallback_calls, updateTraversability_push by assumption.
    rewrite <- Hmap.
    destruct (isZero (updateDuration_ st)); simpl; (apply IH; [assumption | congruence]).
Qed.

(** C1.  The acquisition mode is PULL after construction.  After any sequence
    of callbacks it is PUSH exactly when an image was among them, and along
    the way it changes once if an image arrives and never otherwise; no
    callback leaves PUSH, and only the image callback leaves PULL.  In PUSH
    every update, whether run by the timer or on demand by the update
    service, makes no call but one compute call to the engine; and after an
    image followed by any images and update triggers, the elevation map the
    engine was handed last is the accumulated image map. *)
Theorem acquisition_mode_one_way : forall (p : Params) (e : E),
  mode (construct p e) = PULL /\
  (forall events,
     mode (run (construct p e) events)
     = if existsb isImage events then PUSH else PULL) /\
  (forall events,
     modeChanges (map mode (trajectory (construct p e) events))
     = if existsb isImage events then 1%nat else 0%nat) /\
  (forall ev st, mode st = PUSH -> mode (fst (step ev st)) = PUSH) /\
  (forall ev st,
     mode st = PULL -> mode (fst (step ev st)) = if isImage ev then PUSH else PULL) /\
  (forall env st,
     mode st = PUSH ->
     updateTraversability env st
     = (fst (TraversabilityMap.computeTraversability (traversabilityMap_ st)),
        setTraversabilityMap
          (snd (TraversabilityMap.computeTraversability (traversabilityMap_ st))) st,
        [CallComputeTraversability]) /\
     calls (updateTimerCallback env st) = [CallComputeTraversability] /\
     forall polls response,
       calls (updateServiceCallback polls env response st)
       = if isZero (updateDuration_ st) then [CallComputeTraversability] else []) /\
  (forall image rest st,
     forallb isAcquisition rest = true ->
     lastElevationMap (allCalls st (EvImage image :: rest))
     = Some (toMessage (imageGridMap_ (run st (EvImage image :: rest))))).
Proof.
  intros p e; repeat split.
  - intros events; unfold mode; rewrite run_flag; reflexivity.
  - intros events; rewrite modeChanges_trajectory; reflexivity.
  - intros ev st; unfold mode; rewrite step_flag.
    destruct (getImageCallback_ st); [reflexivity | discriminate].
  - intros ev st; unfold mode; rewrite step_flag.
    destruct (getImageCallback_ st); [discriminate | reflexivity].
  - apply updateTraversability_push.
    unfold mode in H; destruct (getImageCallback_ st); [reflexivity | discriminate].
  - rewrite updateTimerCallback_calls, updateTraversability_push; [reflexivity|].
    unfold mode in H; destruct (getImageCallback_ st); [reflexivity | discriminate].
  - intros polls response; rewrite updateServiceCallback_calls.
    rewrite updateTraversability_push; [reflexivity|].
    unfold mode in H; destruct (getImageCallback_ st); [reflexivity | discriminate].
  - intros image rest st Hacq; unfold lastElevationMap; simpl.
    rewrite fold_left_app, imageCallback_eq; simpl.
    apply (lastElevationMap_push rest
             (setTraversabilityMap
                (TraversabilityMap.setElevationMap (toMessage (accumulated image st))
                   (traversabilityMap_ st))
                (setImageGridMap (accumulated image st) (setGetImageCallback true st)))
             Hacq eq_refl).
Qed.

(** ** Accumulation of streamed images *)

Lemma addLayerFromImage_geometry : forall image layer m lo hi,
  geometry (snd (addLayerFromImage image layer m lo hi)) = geometry m /\
  timestamp_ (snd (addLayerFromImage image layer m lo hi)) = timestamp_ m.
Proof.
  intros; unfold addLayerFromImage.
  destruct (imageToMatrix image lo hi); [destruct (sameSize image m)|]; split; reflexivity.
Qed.

Lemma addLayerFromImage_other : forall image layer m lo hi other,
  other <> layer -> get other (snd (addLayerFromImage image layer m lo hi)) = get other m.
Proof.
  intros; unfold addLayerFromImage.
  destruct (imageToMatrix image lo hi); [destruct (sameSize image m)|]; simpl;
    try reflexivity.
  apply get_add_other; assumption.
Qed.

Lemma addLayerFromImage_same : forall image layer m lo hi,
  get layer (snd (addLayerFromImage image layer m lo hi))
  = match imageToMatrix image lo hi with
    | Some d => if sameSize image m then Some d else get layer m
    | None => get layer m
    end.
Proof.
  intros; unfold addLayerFromImage.
  destruct (imageToMatrix image lo hi); [destruct (sameSize image m)|]; simpl;
    try reflexivity.
  apply get_add_same.
Qed.

Lemma firstFrameMap_layers : forall image (st : Node),
  let m0 := initializeFromImage image (imageResolution_ st) (imagePosition_ st)
              (imageGridMap_ st) in
  let zeros := constant (fst (size_ m0)) (snd (size_ m0)) 0 in
  geometry (firstFrameMap image st) = geometry m0 /\
  get "upper_bound" (firstFrameMap image st) = Some zeros /\
  get "lower_bound" (firstFrameMap image st) = Some zeros /\
  get "uncertainty_range" (firstFrameMap image st) = Some (msub zeros zeros).
Proof.
  intros image st m0 zeros; unfold firstFrameMap; fold m0; cbv zeta; fold zeros.
  repeat split.
  - rewrite get_add_other by discriminate. apply get_bounds_upper.
  - rewrite get_add_other by discriminate. apply get_bounds_lower.
  - apply get_add_same.
Qed.

(** C2 (amended).  The first image fixes the geometry of the accumulated
    grid map to what the library derives from that image, and leaves two
    zero-filled bound layers and an uncertainty layer that is their
    difference; a later image keeps geometry, time stamp and every layer
    other than the elevation layer, which it overwrites when the image can be
    decoded at the size of the map.  On every image the accumulated map is
    handed to the engine as its elevation map, and that is the only call
    made: the image callback does not ask the engine to compute. *)
Theorem image_frames_accumulate : forall image (st : Node),
  let r := imageCallback image st in
  let before := imageGridMap_ st in
  let payload := imageGridMap_ (after r) in
  value r = Returned true tt /\
  (getImageCallback_ st = false ->
   let m0 := initializeFromImage image (imageResolution_ st) (imagePosition_ st) before in
   let zeros := constant (fst (size_ m0)) (snd (size_ m0)) 0 in
   geometry payload = geometry m0 /\
   get "upper_bound" payload = Some zeros /\
   get "lower_bound" payload = Some zeros /\
   get "uncertainty_range" payload = Some (msub zeros zeros) /\
   msub zeros zeros = zeros) /\
  (getImageCallback_ st = true ->
   geometry payload = geometry before /\
   timestamp_ payload = timestamp_ before /\
   (forall layer, layer <> "elevation" -> get layer payload = get layer before) /\
   get "elevation" payload
   = match imageToMatrix image (imageMinHeight_ st) (imageMaxHeight_ st) with
     | Some d => if sameSize image before then Some d else get "elevation" before
     | None => get "elevation" before
     end) /\
  calls r = [CallSetElevationMap (toMessage payload)] /\
  traversabilityMap_ (after r)
  = TraversabilityMap.setElevationMap (toMessage payload) (traversabilityMap_ st) /\
  existsb isComputeTraversability (calls r) = false.
Proof.
  intros image st r before payload.
  assert (Hr : r = imageCallback image st) by reflexivity.
  rewrite imageCallback_eq in Hr.
  assert (Hp : payload = accumulated image st) by (unfold payload; rewrite Hr; reflexivity).
  split; [rewrite Hr; reflexivity|].
  split; [|split; [|rewrite Hr, Hp; repeat split]].
  - intros Hf m0 zeros. rewrite Hp; unfold accumulated; rewrite Hf.
    destruct (firstFrameMap_layers image st) as (Hg & Hu & Hl & Hd).
    destruct (addLayerFromImage_geometry image "elevation" (firstFrameMap image st)
                (imageMinHeight_ st) (imageMaxHeight_ st)) as [Hg' _].
    rewrite !addLayerFromImage_other by discriminate.
    split; [exact (eq_trans Hg' Hg)|].
    split; [exact Hu|]. split; [exact Hl|]. split; [exact Hd|].
    apply msub_zero.
  - intros Hf. rewrite Hp; unfold accumulated; rewrite Hf.
    destruct (addLayerFromImage_geometry image "elevation" before
                (imageMinHeight_ st) (imageMaxHeight_ st)) as [Hg Ht].
    split; [exact Hg|]. split; [exact Ht|]. split.
    + intros layer Hne; apply addLayerFromImage_other; assumption.
    + apply addLayerFromImage_same.
Qed.

(** ** Batches of footprint paths *)

Lemma setTraversabilityMap_id : forall (st : Node) e,
  traversabilityMap_ st = e -> setTraversabilityMap e st = st.
Proof. intros st e H; destruct st; simpl in *; subst; reflexivity. Qed.

Lemma checkFootprintPathLoop_ok : forall e r paths results e' r',
  ChecksInOrder e r paths results e' r' ->
  forall (st : Node) response,
    traversabilityMap_ st = e ->
    checkFootprintPathLoop paths r response st
    = ((true, response ++ results), setTraversabilityMap e' st,
       map (fun path => CallCheckFootprintPath path) paths).
Proof.
  induction 1 as [e r | e r path paths r1 e1 results e' r' Hc _ IH];
    intros st response He; simpl.
  - unfold ret; rewrite app_nil_r, setTraversabilityMap_id by assumption; reflexivity.
  - unfold bind at 1, engineRun, bind, emit, gets, modify, ret; simpl.
    rewrite He, Hc; simpl.
    rewrite (IH (setTraversabilityMap e1 st) (response ++ [r1]) eq_refl).
    rewrite <- app_assoc; reflexivity.
Qed.

Lemma checkFootprintPathLoop_fail : forall e r before results e1 r1,
  ChecksInOrder e r before results e1 r1 ->
  forall path rest (st : Node) response,
    traversabilityMap_ st = e ->
    fst (fst (TraversabilityMap.checkFootprintPath path r1 true e1)) = false ->
    checkFootprintPathLoop (before ++ path :: rest) r response st
    = ((false, response ++ results),
       setTraversabilityMap (snd (TraversabilityMap.checkFootprintPath path r1 true e1)) st,
       map (fun path => CallCheckFootprintPath path) (before ++ [path])).
Proof.
  induction 1 as [e r | e r p paths r1 e1 results e' r' Hc _ IH];
    intros path rest st response He Hfail; simpl.
  - unfold bind at 1, engineRun, bind, emit, gets, modify, ret; simpl.
    rewrite He.
    destruct (TraversabilityMap.checkFootprintPath path r true e) as [[ok r2] e2].
    simpl in *; subst ok; simpl. rewrite app_nil_r; reflexivity.
  - unfold bind at 1, engineRun, bind, emit, gets, modify, ret; simpl.
    rewrite He, Hc; simpl.
    rewrite (IH path rest (setTraversabilityMap e1 st) (response ++ [r1]) eq_refl Hfail).
    rewrite <- app_assoc; reflexivity.
Qed.

Lemma ChecksInOrder_length : forall e r paths results e' r',
  ChecksInOrder e r paths results e' r' -> List.length results = List.length paths.
Proof. induction 1; simpl; congruence. Qed.

(** C3.  For a non-empty batch: when every path is checked successfully,
    the callback returns true and the response holds one result per path, in
    the order of the paths; when the check of some path fails after the
    paths before it succeeded, the callback returns false, so that the
    client receives no response at all (the results gathered up to there
    stay behind in the discarded response). *)
Theorem checkFootprintPath_all_or_nothing :
  forall (request : CheckFootprintPathRequest Path) (st : Node),
  cfp_path request <> [] ->
  let r := checkFootprintPath request {| cfp_result := [] |} st in
  (forall results e' r',
     ChecksInOrder (traversabilityMap_ st) TraversabilityMap.defaultResult
       (cfp_path request) results e' r' ->
     value r = Returned true {| cfp_result := results |} /\
     delivered (value r) = Some {| cfp_result := results |} /\
     List.length results = List.length (cfp_path request)) /\
  (forall before path rest results e1 r1,
     cfp_path request = before ++ path :: rest ->
     ChecksInOrder (traversabilityMap_ st) TraversabilityMap.defaultResult
       before results e1 r1 ->
     fst (fst (TraversabilityMap.checkFootprintPath path r1 true e1)) = false ->
     value r = Returned false {| cfp_result := results |} /\
     delivered (value r) = None).
Proof.
  intros request st Hne r; subst r; unfold checkFootprintPath; cbv zeta.
  destruct (cfp_path request) as [|p0 ps] eqn:Hp; [congruence|].
  change (Nat.eqb (List.length (p0 :: ps)) 0) with false; cbv iota.
  simpl cfp_result.
  split.
  - intros results e' r' Hc.
    unfold bind; rewrite (checkFootprintPathLoop_ok Hc st [] eq_refl); simpl.
    repeat split. exact (ChecksInOrder_length Hc).
  - intros before path rest results e1 r1 Hsplit Hc Hfail.
    unfold bind; rewrite Hsplit.
    rewrite (checkFootprintPathLoop_fail Hc path rest st [] eq_refl Hfail); simpl.
    split; reflexivity.
Qed.

(** C6.  On an empty batch the callback returns false without touching the
    response, the node or any collaborator; the client receives nothing,
    and the response roscpp passed in, which holds no result, still holds
    none. *)
Theorem checkFootprintPath_empty_rejected :
  forall (request : CheckFootprintPathRequest Path)
         (response : CheckFootprintPathResponse Result) (st : Node),
  cfp_path request = [] ->
  checkFootprintPath request response st = (Returned false response, st, []) /\
  delivered (value (checkFootprintPath request response st)) = None /\
  value (checkFootprintPath request {| cfp_result := [] |} st)
  = Returned false {| cfp_result := [] |}.
Proof.
  intros request response st Hp; unfold checkFootprintPath; cbv zeta.
  rewrite Hp; simpl. repeat split.
Qed.

(** ** Members that stay as the constructor left them *)

Lemma run_config : forall events (st : Node), config (run st events) = config st.
Proof.
  intros events st.
  apply maintains_run with (P := fun s => config s = config st); try reflexivity.
  - intros e s H; exact H.
  - intros s H; exact H.
  - split; [intros m s H | intros s H]; exact H.
Qed.

Lemma run_stamp : forall events (st : Node),
  stamp (ps_header (submapPoint_ st)) = 0%Z ->
  stamp (ps_header (submapPoint_ (run st events))) = 0%Z.
Proof.
  intros events st H.
  apply maintains_run with (P := fun s => stamp (ps_header (submapPoint_ s)) = 0%Z);
    try assumption.
  - intros e s Hs; exact Hs.
  - intros s Hs; reflexivity.
  - split; [intros m s Hs | intros s Hs]; exact Hs.
Qed.

(** The configuration of every state the node can reach. *)
Lemma reachable_config : forall (p : Params) (e : E) events,
  let st := run (construct p e) events in
  submapServiceName_ st = p_submap_service p /\
  mapLength_ st = {| vx := p_map_length_x p; vy := p_map_length_y p |} /\
  elevationMapLayers_ st = requiredLayers /\
  submapPoint_ st
  = {| ps_header := {| stamp := 0; frame_id := p_robot_frame_id p |};
       ps_point := {| point_x := p_map_center_x p; point_y := p_map_center_y p;
                      point_z := 0 |} |} /\
  updateTimer_ st = negb (isZero (updateDuration_ st)).
Proof.
  intros p e events st.
  pose proof (run_config events (construct p e)) as Hc.
  pose proof (run_stamp events (construct p e) eq_refl) as Hs.
  fold st in Hc, Hs. unfold config in Hc; simpl in Hc.
  injection Hc as H1 H2 H3 H4 H5 H6 H7 H8 H9 H10 H11 H12 H13 H14 H15 H16 H17 H18 H19.
  repeat split; try assumption.
  - destruct (submapPoint_ st) as [[s f] pt]; simpl in *; subst; reflexivity.
  - rewrite H19, H2; reflexivity.
Qed.

(** ** Pull requests *)

Lemma updateTraversability_pull_requests : forall env (st : Node),
  getImageCallback_ st = false ->
  filter isPullRequest (calls (updateTraversability env st))
  = if waitForExistence env (submapServiceName_ st) 2 then
      match transformPoint env (TraversabilityMap.getMapFrameId (traversabilityMap_ st))
              (stampedSubmapPoint st) with
      | Some transformed => [CallGetGridMap (submapServiceName_ st) (pullRequest st transformed)]
      | None => []
      end
    else [].
Proof.
  intros env st Hf; rewrite (updateTraversability_pull env st Hf); cbv zeta.
  destruct (waitForExistence env (submapServiceName_ st) 2); [|reflexivity].
  destruct (transformPoint env _ (stampedSubmapPoint st)) as [transformed|]; [|reflexivity].
  destruct (callGetGridMap env _ (pullRequest st transformed)); reflexivity.
Qed.

(** C5.  In PULL mode, when the transform of the submap point into the map
    frame of the engine is not available, the update returns false and
    nothing has changed: the engine, the image members and the configuration
    are as before (the whole node is, whenever the time stamp of the submap
    point was already zero, as it is in every reachable state), and the only
    calls made are the existence wait and, if the provider exists, the
    failed transform; no pull request, no new elevation map for the engine,
    no compute.  The on-demand update service then returns false as well. *)
Theorem transform_failure_aborts_update : forall env (st : Node),
  getImageCallback_ st = false ->
  transformPoint env (TraversabilityMap.getMapFrameId (traversabilityMap_ st))
    (stampedSubmapPoint st) = None ->
  let r := updateTraversability env st in
  value r = false /\
  traversabilityMap_ (after r) = traversabilityMap_ st /\
  imageState (after r) = imageState st /\
  config (after r) = config st /\
  (stamp (ps_header (submapPoint_ st)) = 0%Z -> after r = st) /\
  (forall p e events, st = run (construct p e) events -> after r = st) /\
  calls r
  = CallWaitForExistence (submapServiceName_ st) 2
    :: (if waitForExistence env (submapServiceName_ st) 2
        then [CallTransformPoint (TraversabilityMap.getMapFrameId (traversabilityMap_ st))
                (stampedSubmapPoint st)]
        else []) /\
  existsb isPullRequest (calls r) = false /\
  existsb isSetElevationMap (calls r) = false /\
  existsb isComputeTraversability (calls r) = false /\
  (forall polls response,
     isZero (updateDuration_ st) = true ->
     value (updateServiceCallback polls env response st) = Returned false response).
Proof.
  intros env st Hf Htf r.
  assert (Hr : r = updateTraversability env st) by reflexivity.
  rewrite (updateTraversability_pull env st Hf) in Hr; cbv zeta in Hr.
  rewrite Htf in Hr.
  assert (Hstamp : stamp (ps_header (submapPoint_ st)) = 0%Z -> after r = st).
  { intros H0; rewrite Hr.
    destruct (waitForExistence env (submapServiceName_ st) 2); simpl; [|reflexivity].
    apply setSubmapPoint_id; assumption. }
  split; [rewrite Hr; destruct (waitForExistence env _ 2); reflexivity|].
  split; [rewrite Hr; destruct (waitForExistence env _ 2); reflexivity|].
  split; [rewrite Hr; destruct (waitForExistence env _ 2); reflexivity|].
  split; [rewrite Hr; destruct (waitForExistence env _ 2); reflexivity|].
  split; [exact Hstamp|].
  split.
  { intros p e events Hst; apply Hstamp; rewrite Hst.
    apply run_stamp; reflexivity. }
  split; [rewrite Hr; destruct (waitForExistence env _ 2); reflexivity|].
  split; [rewrite Hr; destruct (waitForExistence env _ 2); reflexivity|].
  split; [rewrite Hr; destruct (waitForExistence env _ 2); reflexivity|].
  split; [rewrite Hr; destruct (waitForExistence env _ 2); reflexivity|].
  intros polls response Hz.
  rewrite updateServiceCallback_eq; cbv zeta; rewrite Hz.
  fold r; rewrite Hr. destruct (waitForExistence env _ 2); reflexivity.
Qed.

(** C8.  In every reachable state in PULL mode, a pull request made by an
    update goes to the configured submap service and carries the x and y of
    the configured submap point transformed into the map frame of the
    engine, the configured map length in x and y, and the layers elevation,
    upper_bound, lower_bound; an update makes at most one pull request, and
    makes one whenever the provider exists and the transform resolves. *)
Theorem pull_request_contents : forall (p : Params) (e : E) events env,
  let st := run (construct p e) events in
  let anchor :=
    {| ps_header := {| stamp := 0; frame_id := p_robot_frame_id p |};
       ps_point := {| point_x := p_map_center_x p; point_y := p_map_center_y p;
                      point_z := 0 |} |} in
  let frame := TraversabilityMap.getMapFrameId (traversabilityMap_ st) in
  let requestFor (transformed : PointStamped) :=
    {| req_frame_id := "";
       req_position_x := point_x (ps_point transformed);
       req_position_y := point_y (ps_point transformed);
       req_length_x := p_map_length_x p;
       req_length_y := p_map_length_y p;
       req_layers := ["elevation"; "upper_bound"; "lower_bound"] |} in
  mode st = PULL ->
  (forall service request,
     In (CallGetGridMap service request) (calls (updateTraversability env st)) ->
     service = p_submap_service p /\
     exists transformed,
       transformPoint env frame anchor = Some transformed /\
       request = requestFor transformed) /\
  (List.length (filter isPullRequest (calls (updateTraversability env st))) <= 1)%nat /\
  (forall transformed,
     waitForExistence env (p_submap_service p) 2 = true ->
     transformPoint env frame anchor = Some transformed ->
     In (CallGetGridMap (p_submap_service p) (requestFor transformed))
        (calls (updateTraversability env st))) /\
  calls (updateTimerCallback env st) = calls (updateTraversability env st) /\
  (forall polls response,
     isZero (updateDuration_ st) = true ->
     calls (updateServiceCallback polls env response st)
     = calls (updateTraversability env st)).
Proof.
  intros p e events env st anchor frame requestFor Hmode.
  assert (Hf : getImageCallback_ st = false).
  { unfold mode in Hmode; destruct (getImageCallback_ st); [discriminate | reflexivity]. }
  destruct (reachable_config p e events) as (Hsvc & Hlen & Hlay & Hpt & _).
  fold st in Hsvc, Hlen, Hlay, Hpt.
  assert (Hanchor : stampedSubmapPoint st = anchor).
  { unfold stampedSubmapPoint; rewrite Hpt; reflexivity. }
  assert (Hreq : forall t, pullRequest st t = requestFor t).
  { intros t; unfold pullRequest, requestFor; rewrite Hlen, Hlay; reflexivity. }
  pose proof (updateTraversability_pull_requests env st Hf) as Hpull.
  rewrite Hsvc, Hanchor in Hpull; fold frame in Hpull.
  split; [|split; [|split; [|split]]].
  - intros service request Hin.
    assert (Hin' : In (CallGetGridMap service request)
                     (filter isPullRequest (calls (updateTraversability env st)))).
    { apply filter_In; split; [assumption | reflexivity]. }
    rewrite Hpull in Hin'.
    destruct (waitForExistence env (p_submap_service p) 2); [|destruct Hin'].
    destruct (transformPoint env frame anchor) as [transformed|]; [|destruct Hin'].
    destruct Hin' as [Heq | []]. injection Heq as Hs Hr.
    split; [congruence|]. exists transformed; split; [reflexivity|].
    rewrite <- Hr; apply Hreq.
  - rewrite Hpull.
    destruct (waitForExistence env (p_submap_service p) 2); [|simpl; lia].
    destruct (transformPoint env frame anchor); simpl; lia.
  - intros transformed Hw Ht.
    assert (Hin' : In (CallGetGridMap (p_submap_service p) (requestFor transformed))
                     (filter isPullRequest (calls (updateTraversability env st)))).
    { rewrite Hpull, Hw, Ht, Hreq; left; reflexivity. }
    apply filter_In in Hin'; tauto.
  - apply updateTimerCallback_calls.
  - intros polls response Hz; rewrite updateServiceCallback_calls, Hz; reflexivity.
Qed.

(** ** Submap extraction *)

Lemma exists_In : forall layer m, exists_ layer m = true <-> In layer (getLayers m).
Proof.
  intros layer m; unfold exists_, get, getLayers.
  induction (layers_ m) as [|[l d] ls IH]; simpl.
  - split; [discriminate | tauto].
  - destruct (String.eqb l layer) eqn:Heq.
    + apply String.eqb_eq in Heq; tauto.
    + apply String.eqb_neq in Heq; tauto.
Qed.

Lemma getSubmap_layers : forall m position length,
  getLayers (fst (getSubmap m position length)) = getLayers m.
Proof.
  intros; unfold getSubmap, getLayers.
  destruct (submapGeometry m position length); simpl; rewrite map_map; simpl.
  - reflexivity.
  - apply map_id.
Qed.

Lemma getSubmap_success : forall m position length,
  snd (getSubmap m position length)
  = match submapGeometry m position length with Some _ => true | None => false end.
Proof. intros; unfold getSubmap; destruct (submapGeometry m position length); reflexivity. Qed.

Lemma layerData_Forall2 : forall m layers ds,
  layerData m layers = Some ds -> Forall2 (fun l d => get l m = Some d) layers ds.
Proof.
  induction layers as [|l ls IH]; simpl; intros ds H.
  - injection H as <-; constructor.
  - destruct (get l m) eqn:Hg; [|discriminate].
    destruct (layerData m ls) eqn:Hd; [|discriminate].
    injection H as <-; constructor; auto.
Qed.

Lemma layerData_total : forall m layers,
  (forall l, In l layers -> exists_ l m = true) -> exists ds, layerData m layers = Some ds.
Proof.
  induction layers as [|l ls IH]; simpl; intros H; [eauto|].
  assert (Hl : exists_ l m = true) by auto.
  unfold exists_ in Hl. destruct (get l m); [|discriminate].
  destruct IH as [ds Hds]; [auto|]. rewrite Hds; eauto.
Qed.

(** C4.  The callback changes nothing and calls nobody.  With no layer
    requested the response carries every layer of the traversability map,
    in its order; with layers requested that all exist in the traversability
    map it carries exactly those, in the order asked, with the data of the
    extracted submap.  When the library finds no submap for the requested
    position and length, the callback fails (it returns false, or throws on
    an absent layer) and the client receives no map; when it finds one and
    the requested layers exist, the client receives the response. *)
Theorem getTraversabilityMap_layers :
  forall (request : GetGridMapRequest) (response : GetGridMapResponse) (st : Node),
  let map := TraversabilityMap.getTraversabilityMap (traversabilityMap_ st) in
  let position := {| vx := req_position_x request; vy := req_position_y request |} in
  let length := {| vx := req_length_x request; vy := req_length_y request |} in
  let subMap := fst (getSubmap map position length) in
  let isSuccess := snd (getSubmap map position length) in
  let r := getTraversabilityMap request response st in
  after r = st /\ calls r = [] /\
  (req_layers request = [] ->
   value r = Returned isSuccess {| resp_map := toMessage subMap |} /\
   msg_layers (toMessage subMap) = getLayers map) /\
  (req_layers request <> [] ->
   (forall l, In l (req_layers request) -> exists_ l map = true) ->
   exists msg,
     value r = Returned isSuccess {| resp_map := msg |} /\
     msg_layers msg = req_layers request /\
     Forall2 (fun l d => get l subMap = Some d) (req_layers request) (msg_data msg)) /\
  (submapGeometry map position length = None ->
   delivered (value r) = None /\
   (value r = Threw \/ exists response', value r = Returned false response')) /\
  (forall g,
     submapGeometry map position length = Some g ->
     (forall l, In l (req_layers request) -> exists_ l map = true) ->
     exists response', delivered (value r) = Some response').
Proof.
  intros request response st map position length subMap isSuccess r.
  assert (Hr : r = match req_layers request with
                   | [] => (Returned isSuccess {| resp_map := toMessage subMap |}, st, [])
                   | _ :: _ =>
                       match toMessageLayers subMap (req_layers request) with
                       | None => (Threw, st, [])
                       | Some msg => (Returned isSuccess {| resp_map := msg |}, st, [])
                       end
                   end).
  { unfold r, getTraversabilityMap; cbv zeta.
    unfold bind, gets; cbv beta iota.
    fold map; fold position; fold length; fold subMap; fold isSuccess.
    destruct (req_layers request) as [|l0 ls]; [reflexivity|].
    destruct (toMessageLayers subMap (l0 :: ls)); reflexivity. }
  assert (Hall : (forall l, In l (req_layers request) -> exists_ l map = true) ->
                 exists ds, layerData subMap (req_layers request) = Some ds).
  { intros H; apply layerData_total; intros l Hl.
    apply exists_In; unfold subMap; rewrite getSubmap_layers.
    apply exists_In; auto. }
  assert (Hs : isSuccess = match submapGeometry map position length with
                           | Some _ => true | None => false end)
    by apply getSubmap_success.
  split; [|split; [|split; [|split; [|split]]]].
  - rewrite Hr. destruct (req_layers request) as [|l0 ls]; [reflexivity|].
    destruct (toMessageLayers subMap (l0 :: ls)); reflexivity.
  - rewrite Hr. destruct (req_layers request) as [|l0 ls]; [reflexivity|].
    destruct (toMessageLayers subMap (l0 :: ls)); reflexivity.
  - intros Hl; rewrite Hr, Hl; split; [reflexivity|].
    unfold toMessage; simpl. apply getSubmap_layers.
  - intros Hne Hex. destruct (Hall Hex) as [ds Hds].
    exists {| msg_info := infoOf subMap; msg_layers := req_layers request; msg_data := ds |}.
    rewrite Hr; unfold toMessageLayers; rewrite Hds.
    destruct (req_layers request) eqn:Hl; [congruence|].
    repeat split. simpl. apply layerData_Forall2; assumption.
  - intros Hnone; rewrite Hnone in Hs; rewrite Hr, Hs.
    destruct (req_layers request) as [|l0 ls];
      [split; [reflexivity | right; eexists; reflexivity]|].
    destruct (toMessageLayers subMap (l0 :: ls));
      [split; [reflexivity | right; eexists; reflexivity]
      | split; [reflexivity | left; reflexivity]].
  - intros g Hsome Hex; rewrite Hsome in Hs; rewrite Hr, Hs.
    destruct (Hall Hex) as [ds Hds].
    unfold toMessageLayers; rewrite Hds.
    destruct (req_layers request); eexists; reflexivity.
Qed.

(** ** The update service *)

Lemma isZero_fromSec_0 : isZero (fromSec 0) = true.
Proof. reflexivity. Qed.


(** C10.  Whatever the engine and the traversability map it holds, a
    response of the update service carries the identity orientation
    (w = 1, x = y = z = 0); of the pose only the x and y of the position
    come from the traversability map, z is zero. *)
Theorem updateServiceCallback_orientation :
  forall polls env (response response' : GetGridMapInfoResponse) (st : Node),
  value (updateServiceCallback polls env response st) = Returned true response' ->
  let payload :=
    TraversabilityMap.getTraversabilityMap
      (traversabilityMap_ (after (updateServiceCallback polls env response st))) in
  quat_w (pose_orientation (info_pose (resp_info response'))) = 1 /\
  quat_x (pose_orientation (info_pose (resp_info response'))) = 0 /\
  quat_y (pose_orientation (info_pose (resp_info response'))) = 0 /\
  quat_z (pose_orientation (info_pose (resp_info response'))) = 0 /\
  point_x (pose_position (info_pose (resp_info response'))) = vx (position_ payload) /\
  point_y (pose_position (info_pose (resp_info response'))) = vy (position_ payload) /\
  point_z (pose_position (info_pose (resp_info response'))) = 0.
Proof.
  intros polls env response response' st Hv payload; subst payload.
  rewrite updateServiceCallback_eq in Hv |- *; cbv zeta in Hv |- *.
  destruct (value (if isZero (updateDuration_ st)
                   then updateTraversability env st else (true, st, [])));
    [|discriminate].
  destruct polls; [discriminate|].
  destruct (TraversabilityMap.traversabilityMapInitialized _); [|discriminate].
  injection Hv as <-; repeat split.
Qed.

(** ** Loading an elevation map *)

Lemma addMissingLayers_geometry : forall layers m,
  geometry (addMissingLayers layers m) = geometry m /\
  timestamp_ (addMissingLayers layers m) = timestamp_ m.
Proof.
  induction layers as [|l ls IH]; intros m; simpl; [split; reflexivity|].
  destruct (IH (if negb (exists_ l m) then addConstant l 0 m else m)) as [Hg Ht].
  rewrite Hg, Ht. destruct (negb (exists_ l m)); split; reflexivity.
Qed.

Lemma addMissingLayers_get : forall layers m layer,
  get layer (addMissingLayers layers m)
  = if existsb (String.eqb layer) layers && negb (exists_ layer m)
    then Some (constant (fst (size_ m)) (snd (size_ m)) 0)
    else get layer m.
Proof.
  induction layers as [|l ls IH]; intros m layer; simpl; [reflexivity|].
  rewrite IH. destruct (String.eqb layer l) eqn:Heq.
  - apply String.eqb_eq in Heq; subst l. simpl.
    destruct (exists_ layer m) eqn:Hex; simpl.
    + rewrite Hex, andb_false_r; reflexivity.
    + unfold addConstant at 1 2. rewrite exists_add_same, andb_false_r.
      apply get_add_same.
  - apply String.eqb_neq in Heq. simpl.
    destruct (exists_ l m); simpl; [reflexivity|].
    unfold addConstant.
    rewrite exists_add_other, get_add_other by assumption. reflexivity.
Qed.

Lemma loadElevationMap_eq : forall env response (st : Node),
  loadElevationMap env response st
  = match loadFromBag env (pathToLoadBag_ st) (bagTopicName_ st) with
    | None =>
        (Returned false response, st,
         [CallLoadFromBag (pathToLoadBag_ st) (bagTopicName_ st)])
    | Some map =>
        let loaded :=
          setTimestamp (now env) (addMissingLayers (elevationMapLayers_ st) map) in
        let e1 := TraversabilityMap.setElevationMap (toMessage loaded)
                    (traversabilityMap_ st) in
        (Returned (fst (TraversabilityMap.computeTraversability e1)) response,
         setTraversabilityMap (snd (TraversabilityMap.computeTraversability e1)) st,
         [CallLoadFromBag (pathToLoadBag_ st) (bagTopicName_ st);
          CallSetElevationMap (toMessage loaded); CallComputeTraversability])
    end.
Proof.
  intros env response st; unfold loadElevationMap.
  unfold bind at 1; unfold gets at 1; cbv beta iota.
  unfold bind at 1; unfold gets at 1; cbv beta iota.
  unfold bind at 1; unfold emit at 1; cbv beta iota.
  destruct (loadFromBag env (pathToLoadBag_ st) (bagTopicName_ st)) as [map|];
    [|reflexivity].
  unfold engineComputeTraversability, engineRun, engineSetElevationMap,
    bind, ret, modify, gets, emit; simpl.
  destruct (fst (TraversabilityMap.computeTraversability _)); reflexivity.
Qed.

(** C9.  When the bag cannot be read the load returns false and leaves the
    node and the engine alone.  When it can, each of the layers elevation,
    upper_bound and lower_bound that the loaded map lacks is added filled
    with zeros, every layer the map had is kept, the geometry is kept, the
    map is stamped with the current time and handed to the engine, the
    engine is asked to compute, and the load returns what the compute
    returned: a failed compute makes the load fail. *)
Theorem loadElevationMap_completes_layers : forall env (response : unit) (st : Node),
  let path := pathToLoadBag_ st in
  let topic := bagTopicName_ st in
  let r := loadElevationMap env response st in
  (loadFromBag env path topic = None ->
   value r = Returned false response /\ after r = st /\
   calls r = [CallLoadFromBag path topic]) /\
  (forall map,
     loadFromBag env path topic = Some map ->
     elevationMapLayers_ st = requiredLayers ->
     let loaded := setTimestamp (now env) (addMissingLayers requiredLayers map) in
     let e1 := TraversabilityMap.setElevationMap (toMessage loaded)
                 (traversabilityMap_ st) in
     (forall layer,
        In layer requiredLayers ->
        get layer loaded
        = if exists_ layer map then get layer map
          else Some (constant (fst (size_ map)) (snd (size_ map)) 0)) /\
     (forall layer d, get layer map = Some d -> get layer loaded = Some d) /\
     (forall layer, ~ In layer requiredLayers -> get layer loaded = get layer map) /\
     geometry loaded = geometry map /\
     timestamp_ loaded = now env /\
     calls r = [CallLoadFromBag path topic; CallSetElevationMap (toMessage loaded);
                CallComputeTraversability] /\
     value r = Returned (fst (TraversabilityMap.computeTraversability e1)) response /\
     (fst (TraversabilityMap.computeTraversability e1) = false ->
      value r = Returned false response /\ delivered (value r) = None)) /\
  (forall (p : Params) (e : E) events,
     elevationMapLayers_ (run (construct p e) events) = requiredLayers).
Proof.
  intros env response st path topic r.
  assert (Hr : r = loadElevationMap env response st) by reflexivity.
  rewrite loadElevationMap_eq in Hr. fold path in Hr; fold topic in Hr.
  split; [|split].
  - intros Hnone; rewrite Hnone in Hr; rewrite Hr; repeat split.
  - intros map Hsome Hlayers loaded e1.
    rewrite Hsome, Hlayers in Hr; cbv zeta in Hr. fold loaded in Hr; fold e1 in Hr.
    assert (Hget : forall layer,
               get layer loaded
               = if existsb (String.eqb layer) requiredLayers && negb (exists_ layer map)
                 then Some (constant (fst (size_ map)) (snd (size_ map)) 0)
                 else get layer map).
    { intros layer; apply (addMissingLayers_get requiredLayers map layer). }
    split; [|split; [|split; [|split; [|split; [|split; [|split]]]]]].
    + intros layer Hin. rewrite Hget.
      assert (Hex : existsb (String.eqb layer) requiredLayers = true).
      { apply existsb_exists; exists layer; split; [assumption | apply String.eqb_refl]. }
      rewrite Hex; simpl. unfold exists_. destruct (get layer map); reflexivity.
    + intros layer d Hd. rewrite Hget. unfold exists_; rewrite Hd.
      rewrite andb_false_r; reflexivity.
    + intros layer Hnin. rewrite Hget.
      assert (Hex : existsb (String.eqb layer) requiredLayers = false).
      { destruct (existsb (String.eqb layer) requiredLayers) eqn:Hex; [|reflexivity].
        apply existsb_exists in Hex. destruct Hex as (x & Hx & Heq).
        apply String.eqb_eq in Heq; subst x; contradiction. }
      rewrite Hex; reflexivity.
    + apply (addMissingLayers_geometry requiredLayers map).
    + reflexivity.
    + rewrite Hr; reflexivity.
    + rewrite Hr; reflexivity.
    + intros Hfail; rewrite Hr; unfold value; simpl; rewrite Hfail; split; reflexivity.
  - intros p e events.
    destruct (reachable_config p e events) as (_ & _ & Hl & _). exact Hl.
Qed.

End Properties.

(** * The properties on the reference instance *)

Import Reference.

(** An image switches the node to PUSH, and the timer update that follows
    only asks the engine to compute, even with the transform unavailable. *)
Lemma acquisition_mode_one_way_witness :
  mode (fst (step (EvImage image) (node0 1))) = PUSH /\
  calls (updateTimerCallback (env false) (fst (step (EvImage image) (node0 1))))
  = [CallComputeTraversability].
Proof.
  split; [reflexivity|].
  destruct (acquisition_mode_one_way (params 1) engine0) as (_ & _ & _ & _ & _ & H & _).
  apply (H (env false) (fst (step (EvImage image) (node0 1)))); reflexivity.
Defined.

(** C2, as stated, fails: after the first image the engine has been handed
    the accumulated map but has not been asked to compute and holds no
    traversability map; the next update is what computes it. *)
Lemma image_frame_computes_nothing :
  existsb isComputeTraversability (calls (imageCallback image (node0 1))) = false /\
  TraversabilityMap.traversabilityMapInitialized
    (traversabilityMap_ (after (imageCallback image (node0 1)))) = false /\
  TraversabilityMap.traversabilityMapInitialized
    (traversabilityMap_
       (after (updateTraversability (env true) (after (imageCallback image (node0 1))))))
  = true.
Proof. vm_compute; repeat split. Qed.

Lemma image_frames_accumulate_witness :
  getImageCallback_ (node0 1) = false /\
  get "upper_bound" (imageGridMap_ (after (imageCallback image (node0 1))))
  = Some [[0; 0]; [0; 0]] /\
  getImageCallback_ (after (imageCallback image (node0 1))) = true /\
  get "upper_bound"
    (imageGridMap_ (after (imageCallback image (after (imageCallback image (node0 1))))))
  = Some [[0; 0]; [0; 0]].
Proof.
  split; [reflexivity|]. split.
  - destruct (image_frames_accumulate image (node0 1)) as (_ & H & _).
    destruct (H eq_refl) as (_ & Hu & _). exact Hu.
  - split; [reflexivity|].
    destruct (image_frames_accumulate image (after (imageCallback image (node0 1))))
      as (_ & _ & H & _).
    destruct (H eq_refl) as (_ & _ & Hl & _).
    rewrite (Hl "upper_bound"%string) by discriminate. reflexivity.
Defined.

Lemma checkFootprintPath_all_or_nothing_witness :
  cfp_path {| cfp_path := [goodPath 1; goodPath 2] |} <> [] /\
  value (checkFootprintPath {| cfp_path := [goodPath 1; goodPath 2] |}
           {| cfp_result := [] |} updated)
  = Returned true
      {| cfp_result := [ {| is_safe := true; traversability := 1; area := 1 |};
                         {| is_safe := true; traversability := 1; area := 2 |} ] |} /\
  delivered
    (value (checkFootprintPath {| cfp_path := [goodPath 1; emptyPath; goodPath 2] |}
              {| cfp_result := [] |} updated))
  = None.
Proof.
  split; [discriminate|]. split.
  - destruct (checkFootprintPath_all_or_nothing
                {| cfp_path := [goodPath 1; goodPath 2] |} updated) as [H _];
      [discriminate|].
    eapply H.
    eapply ChecksCons; [reflexivity|].
    eapply ChecksCons; [reflexivity|].
    apply ChecksNil.
  - destruct (checkFootprintPath_all_or_nothing
                {| cfp_path := [goodPath 1; emptyPath; goodPath 2] |} updated) as [_ H];
      [discriminate|].
    refine (proj2 (H [goodPath 1] emptyPath [goodPath 2] _ _ _ eq_refl _ _));
      [eapply ChecksCons; [reflexivity | apply ChecksNil] | reflexivity].
Defined.

Lemma checkFootprintPath_empty_rejected_witness :
  cfp_path {| cfp_path := @nil PathMsg |} = [] /\
  delivered (value (checkFootprintPath {| cfp_path := [] |} {| cfp_result := [] |} updated))
  = None.
Proof.
  split; [reflexivity|].
  apply (checkFootprintPath_empty_rejected {| cfp_path := [] |} {| cfp_result := [] |}
           updated eq_refl).
Defined.

Lemma getTraversabilityMap_layers_witness :
  req_layers (insideRequest ["traversability"; "elevation"]) <> [] /\
  (exists msg,
     value (getTraversabilityMap (insideRequest ["traversability"; "elevation"])
              {| resp_map := defaultGridMapMsg |} updated)
     = Returned true {| resp_map := msg |} /\
     msg_layers msg = ["traversability"; "elevation"]) /\
  delivered (value (getTraversabilityMap (outsideRequest [])
                      {| resp_map := defaultGridMapMsg |} updated))
  = None.
Proof.
  split; [discriminate|]. split.
  - destruct (getTraversabilityMap_layers (insideRequest ["traversability"; "elevation"])
                {| resp_map := defaultGridMapMsg |} updated) as (_ & _ & _ & H & _).
    destruct H as (msg & Hv & Hl & _).
    + discriminate.
    + intros l [<- | [<- | []]]; reflexivity.
    + exists msg; split; [exact Hv | exact Hl].
  - destruct (getTraversabilityMap_layers (outsideRequest [])
                {| resp_map := defaultGridMapMsg |} updated) as (_ & _ & _ & _ & H & _).
    apply H; reflexivity.
Defined.

Lemma transform_failure_aborts_update_witness :
  getImageCallback_ (node0 0) = false /\
  transformPoint (env false) (TraversabilityMap.getMapFrameId (traversabilityMap_ (node0 0)))
    (stampedSubmapPoint (node0 0)) = None /\
  value (updateTraversability (env false) (node0 0)) = false /\
  after (updateTraversability (env false) (node0 0)) = node0 0.
Proof.
  split; [reflexivity|]. split; [reflexivity|].
  destruct (transform_failure_aborts_update (env false) (node0 0) eq_refl eq_refl)
    as (Hv & _ & _ & _ & Hs & _).
  split; [exact Hv | exact (Hs eq_refl)].
Defined.



Lemma pull_request_contents_witness :
  mode (run (node0 1) [EvUpdateTimer (env true); EvTraversabilityFootprint]) = PULL /\
  In (CallGetGridMap "/get_grid_map"
        {| req_frame_id := ""; req_position_x := 1; req_position_y := 2;
           req_length_x := 5; req_length_y := 5;
           req_layers := ["elevation"; "upper_bound"; "lower_bound"] |})
     (calls (updateTraversability (env true)
               (run (node0 1) [EvUpdateTimer (env true); EvTraversabilityFootprint]))).
Proof.
  assert (Hmode : mode (run (node0 1) [EvUpdateTimer (env true); EvTraversabilityFootprint])
                  = PULL) by reflexivity.
  split; [exact Hmode|].
  destruct (pull_request_contents (params 1) engine0
              [EvUpdateTimer (env true); EvTraversabilityFootprint] (env true) Hmode)
    as (_ & _ & H & _).
  apply (H {| ps_header := {| stamp := 0; frame_id := "map" |};
              ps_point := {| point_x := 1; point_y := 2; point_z := 0 |} |});
    reflexivity.
Defined.

Lemma loadElevationMap_completes_layers_witness :
  loadFromBag (env true) (pathToLoadBag_ (node0 1)) (bagTopicName_ (node0 1))
  = Some elevationOnly /\
  elevationMapLayers_ (node0 1) = requiredLayers /\
  exists_ "upper_bound" elevationOnly = false /\
  get "upper_bound"
    (setTimestamp (now (env true)) (addMissingLayers requiredLayers elevationOnly))
  = Some [[0; 0]; [0; 0]] /\
  value (loadElevationMap (env true) tt (node0 1)) = Returned true tt.
Proof.
  split; [reflexivity|]. split; [reflexivity|]. split; [reflexivity|].
  destruct (loadElevationMap_completes_layers (env true) tt (node0 1)) as (_ & H & _).
  destruct (H elevationOnly eq_refl eq_refl) as (Hl & _ & _ & _ & _ & _ & Hv & _).
  split.
  - rewrite (Hl "upper_bound"%string) by (right; left; reflexivity). reflexivity.
  - rewrite Hv. reflexivity.
Defined.

Lemma updateServiceCallback_orientation_witness :
  value (updateServiceCallback 1 (env true) {| resp_info := defaultGridMapInfo |} (node0 0))
  = Returned true
      (fillInfo (env true) (traversabilityMap_ updated) {| resp_info := defaultGridMapInfo |}) /\
  quat_w (pose_orientation (info_pose (resp_info
    (fillInfo (env true) (traversabilityMap_ updated) {| resp_info := defaultGridMapInfo |}))))
  = 1.
Proof.
  split; [reflexivity|].
  assert (Hv : value (updateServiceCallback 1 (env true)
                        {| resp_info := defaultGridMapInfo |} (node0 0))
               = Returned true
                   (fillInfo (env true) (traversabilityMap_ updated)
                      {| resp_info := defaultGridMapInfo |})) by reflexivity.
  destruct (updateServiceCallback_orientation 1 (env true)
              {| resp_info := defaultGridMapInfo |} (node0 0) Hv) as (Hw & _).
  exact Hw.
Defined.

(** * Further properties of the callbacks *)

Section FurtherProperties.
Context {lib : GridMapLibrary}.
Context {E Path Result : Type}.
Context {engine : TraversabilityMap.Ops E Path Result}.

Abbreviation Node := (Node E).
Abbreviation M := (M E Path).
Abbreviation Call := (Call Path).

(** ** [updateParameter] *)

Lemma updateParameter_eq : forall env (response : unit) (st : Node),
  updateParameter env response st
  = let c1 := filterCommand env st in
    let c2 := footprintCommand env st in
    let f := TraversabilityMap.updateFilter (traversabilityMap_ st) in
    if Z.eqb (system env c1) 0 then
      if Z.eqb (system env c2) 0 then
        (Returned (fst f) response, setTraversabilityMap (snd f) st,
         [CallSystem c1; CallSystem c2; CallUpdateFilter])
      else (Returned false response, st, [CallSystem c1; CallSystem c2])
    else (Returned false response, st, [CallSystem c1]).
Proof.
  intros env response st; unfold updateParameter; cbv zeta.
  unfold bind at 1; unfold gets at 1; cbv beta iota.
  unfold bind at 1; unfold gets at 1; cbv beta iota.
  unfold bind at 1; unfold emit at 1; cbv beta iota.
  fold (filterCommand env st). fold (footprintCommand env st).
  destruct (Z.eqb (system env (filterCommand env st)) 0); [|reflexivity].
  unfold negb at 1; cbv iota.
  unfold bind at 1; unfold emit at 1; cbv beta iota.
  destruct (Z.eqb (system env (footprintCommand env st)) 0); [|reflexivity].
  unfold engineRun, bind, ret, modify, gets, emit; simpl.
  destruct (fst (TraversabilityMap.updateFilter (traversabilityMap_ st))); reflexivity.
Qed.

(** X1.  [updateParameter] returns true exactly when the command that loads
    the filter parameters and the command that loads the footprint parameters
    both exit with status 0 and the engine then reloads its filters
    successfully; it always returns, with the response as it was passed. *)
Theorem updateParameter_succeeds_iff : forall env (response : unit) (st : Node),
  let r := updateParameter env response st in
  (value r = Returned true response <->
   system env (filterCommand env st) = 0%Z /\
   system env (footprintCommand env st) = 0%Z /\
   fst (TraversabilityMap.updateFilter (traversabilityMap_ st)) = true) /\
  (value r = Returned true response \/ value r = Returned false response).
Proof.
  intros env response st r; subst r; rewrite updateParameter_eq; cbv zeta.
  destruct (Z.eqb_spec (system env (filterCommand env st)) 0) as [H1 | H1].
  - destruct (Z.eqb_spec (system env (footprintCommand env st)) 0) as [H2 | H2].
    + unfold value; simpl.
      destruct (fst (TraversabilityMap.updateFilter (traversabilityMap_ st))).
      * split; [split; auto | left; reflexivity].
      * split; [split; [discriminate | intros (_ & _ & H); discriminate]
               | right; reflexivity].
    + split; [split; [discriminate | intros (_ & H & _); contradiction]
             | right; reflexivity].
  - split; [split; [discriminate | intros (H & _); contradiction] | right; reflexivity].
Qed.

(** X2.  [updateParameter] stops at the first command that fails: when the
    filter command fails it is the only call made, when the footprint command
    fails no filter reload is requested, and in both cases the node is left
    exactly as it was.  Only after both commands succeeded is the engine asked
    to reload its filters, and then nothing but the engine changes. *)
Theorem updateParameter_stops_at_first_failure : forall env (response : unit) (st : Node),
  let r := updateParameter env response st in
  let c1 := filterCommand env st in
  let c2 := footprintCommand env st in
  (system env c1 <> 0%Z -> calls r = [CallSystem c1] /\ after r = st) /\
  (system env c1 = 0%Z -> system env c2 <> 0%Z ->
   calls r = [CallSystem c1; CallSystem c2] /\ after r = st) /\
  (system env c1 = 0%Z -> system env c2 = 0%Z ->
   calls r = [CallSystem c1; CallSystem c2; CallUpdateFilter] /\
   after r
   = setTraversabilityMap (snd (TraversabilityMap.updateFilter (traversabilityMap_ st))) st).
Proof.
  intros env response st r c1 c2; subst r c1 c2; rewrite updateParameter_eq; cbv zeta.
  destruct (Z.eqb_spec (system env (filterCommand env st)) 0) as [H1 | H1];
    [destruct (Z.eqb_spec (system env (footprintCommand env st)) 0) as [H2 | H2]|].
  - split; [intros H; contradiction|]. split; [intros _ H; contradiction|].
    intros _ _; split; reflexivity.
  - split; [intros H; contradiction|]. split; [|intros _ H; contradiction].
    intros _ _; split; reflexivity.
  - split; [intros _; split; reflexivity|]. split; intros H; contradiction.
Qed.

(** ** Delegating callbacks *)

Lemma reachable_members : forall (p : Params) (e : E) events,
  let st := run (construct p e) events in
  footprintYaw_ st = p_footprint_yaw p /\
  bagTopicName_ st = p_elevation_map_topic p /\
  pathToLoadBag_ st = p_load_path_to_bag p /\
  pathToSaveBag_ st = p_save_path_to_bag p /\
  package_ st = p_package p /\
  robot_ st = p_robot p.
Proof.
  intros p e events st.
  pose proof (run_config events (construct p e)) as Hc. fold st in Hc.
  unfold config in Hc; simpl in Hc.
  injection Hc as H1 H2 H3 H4 H5 H6 H7 H8 H9 H10 H11 H12 H13 H14 H15 H16 H17 H18 H19.
  repeat split; assumption.
Qed.

(** X3.  In every state the node can reach, [traversabilityFootprint] asks
    the engine once, with the footprint yaw read from the parameters, and
    returns what the engine returned; nothing but the engine changes. *)
Theorem traversabilityFootprint_uses_configured_yaw :
  forall (p : Params) (e : E) events (response : unit),
  let st := run (construct p e) events in
  let f := TraversabilityMap.traversabilityFootprint (p_footprint_yaw p)
             (traversabilityMap_ st) in
  traversabilityFootprint response st
  = (Returned (fst f) response, setTraversabilityMap (snd f) st,
     [CallTraversabilityFootprint (p_footprint_yaw p)]).
Proof.
  intros p e events response st f; subst f.
  destruct (reachable_members p e events) as (Hyaw & _). fold st in Hyaw.
  unfold traversabilityFootprint, engineRun, bind, ret, modify, gets, emit; simpl.
  rewrite Hyaw.
  destruct (fst (TraversabilityMap.traversabilityFootprint _ _)); reflexivity.
Qed.

(** X4.  In every state the node can reach, [saveToBag] writes the
    traversability map the engine holds to the configured save path, under
    the topic configured for the elevation map, returns what the storage
    returned and leaves the node as it was. *)
Theorem saveToBag_reads_only : forall (p : Params) (e : E) events env (response : unit),
  let st := run (construct p e) events in
  let map := TraversabilityMap.getTraversabilityMap (traversabilityMap_ st) in
  saveToBagService env response st
  = (Returned (saveToBag env map (p_save_path_to_bag p) (p_elevation_map_topic p)) response,
     st,
     [CallSaveToBag map (p_save_path_to_bag p) (p_elevation_map_topic p)]).
Proof.
  intros p e events env response st map; subst map.
  destruct (reachable_members p e events) as (_ & Htopic & _ & Hsave & _).
  fold st in Htopic, Hsave.
  unfold saveToBagService, bind, ret, gets, emit; simpl.
  rewrite Htopic, Hsave; reflexivity.
Qed.

(** ** Updates in PULL mode *)

(** X5.  In PULL mode, when the submap service does not come into existence
    within the two seconds waited for, the update returns false having made
    no other call, and the node is exactly as before. *)
Theorem update_without_provider : forall env (st : Node),
  getImageCallback_ st = false ->
  waitForExistence env (submapServiceName_ st) 2 = false ->
  updateTraversability env st = (false, st, [CallWaitForExistence (submapServiceName_ st) 2]).
Proof.
  intros env st Hf Hw.
  rewrite (updateTraversability_pull env st Hf); cbv zeta. rewrite Hw; reflexivity.
Qed.

(** X6.  In PULL mode an update returns true exactly when the submap service
    exists, the transform of the submap point resolves, the service call
    made with the resulting request succeeds, and the engine computes
    successfully on the elevation map the service returned. *)
Theorem pull_update_succeeds_iff : forall env (st : Node),
  getImageCallback_ st = false ->
  let service := submapServiceName_ st in
  let frame := TraversabilityMap.getMapFrameId (traversabilityMap_ st) in
  (value (updateTraversability env st) = true <->
   waitForExistence env service 2 = true /\
   exists transformed response,
     transformPoint env frame (stampedSubmapPoint st) = Some transformed /\
     callGetGridMap env service (pullRequest st transformed) = Some response /\
     fst (TraversabilityMap.computeTraversability
            (TraversabilityMap.setElevationMap (resp_map response)
               (traversabilityMap_ st))) = true).
Proof.
  intros env st Hf service frame; subst service frame.
  rewrite (updateTraversability_pull env st Hf); cbv zeta.
  destruct (waitForExistence env (submapServiceName_ st) 2).
  - destruct (transformPoint env _ (stampedSubmapPoint st)) as [transformed|] eqn:Ht0.
    + destruct (callGetGridMap env _ (pullRequest st transformed)) as [response|] eqn:Hc0.
      * unfold value; simpl; split.
        -- intros H; split; [reflexivity|]. exists transformed, response; auto.
        -- intros (_ & t & resp & Ht & Hc & Hok).
           injection Ht as <-. rewrite Hc0 in Hc. injection Hc as <-. exact Hok.
      * split; [discriminate|]. intros (_ & t & resp & Ht & Hc & _).
        injection Ht as <-. rewrite Hc0 in Hc. discriminate.
    + split; [discriminate|]. intros (_ & t & resp & Ht & _); discriminate.
  - split; [discriminate|]. intros (H & _); discriminate.
Qed.

(** X7.  An update hands the engine a new elevation map only in PULL mode
    and only when the pull succeeded, and the map it hands over is then the
    one the submap service returned; in every other case the engine keeps
    the elevation map it had. *)
Theorem engine_input_replaced_only_by_pull : forall env (st : Node) msg,
  In (CallSetElevationMap msg) (calls (updateTraversability env st)) <->
  getImageCallback_ st = false /\
  waitForExistence env (submapServiceName_ st) 2 = true /\
  exists transformed response,
    transformPoint env (TraversabilityMap.getMapFrameId (traversabilityMap_ st))
      (stampedSubmapPoint st) = Some transformed /\
    callGetGridMap env (submapServiceName_ st) (pullRequest st transformed)
    = Some response /\
    msg = resp_map response.
Proof.
  intros env st msg.
  destruct (getImageCallback_ st) eqn:Hf.
  - rewrite (updateTraversability_push env st Hf); unfold calls; simpl.
    split; [intros [H | []]; discriminate | intros (H & _); discriminate].
  - rewrite (updateTraversability_pull env st Hf); cbv zeta.
    destruct (waitForExistence env (submapServiceName_ st) 2).
    + destruct (transformPoint env _ (stampedSubmapPoint st)) as [transformed|] eqn:Ht0.
      * destruct (callGetGridMap env _ (pullRequest st transformed))
          as [response|] eqn:Hc0.
        -- unfold calls; simpl; split.
           ++ intros [H | [H | [H | [H | [H | []]]]]]; try discriminate.
              injection H as <-.
              split; [reflexivity|]. split; [reflexivity|].
              exists transformed, response; auto.
           ++ intros (_ & _ & t & resp & Ht & Hc & ->).
              injection Ht as <-. rewrite Hc0 in Hc. injection Hc as <-.
              right; right; right; left; reflexivity.
        -- unfold calls; simpl; split.
           ++ intros [H | [H | [H | []]]]; discriminate.
           ++ intros (_ & _ & t & resp & Ht & Hc & _).
              injection Ht as <-. rewrite Hc0 in Hc. discriminate.
      * unfold calls; simpl; split.
        -- intros [H | [H | []]]; discriminate.
        -- intros (_ & _ & t & resp & Ht & _); discriminate.
    + unfold calls; simpl; split.
      * intros [H | []]; discriminate.
      * intros (_ & H & _); discriminate.
Qed.

(** X8.  In every reachable state in PULL mode, a transform requested by an
    update is that of the configured submap point, in the robot frame and
    with time stamp zero, into the map frame of the engine; an update
    requests it at most once, and requests it whenever the submap service
    exists. *)
Theorem transform_request_contents : forall (p : Params) (e : E) events env,
  let st := run (construct p e) events in
  let anchor :=
    {| ps_header := {| stamp := 0; frame_id := p_robot_frame_id p |};
       ps_point := {| point_x := p_map_center_x p; point_y := p_map_center_y p;
                      point_z := 0 |} |} in
  mode st = PULL ->
  filter isTransformRequest (calls (updateTraversability env st))
  = if waitForExistence env (p_submap_service p) 2
    then [CallTransformPoint (TraversabilityMap.getMapFrameId (traversabilityMap_ st)) anchor]
    else [].
Proof.
  intros p e events env st anchor Hmode.
  assert (Hf : getImageCallback_ st = false).
  { unfold mode in Hmode; destruct (getImageCallback_ st); [discriminate | reflexivity]. }
  destruct (reachable_config p e events) as (Hsvc & _ & _ & Hpt & _).
  fold st in Hsvc, Hpt.
  assert (Hanchor : stampedSubmapPoint st = anchor).
  { unfold stampedSubmapPoint; rewrite Hpt; reflexivity. }
  rewrite (updateTraversability_pull env st Hf); cbv zeta.
  rewrite Hsvc, Hanchor.
  destruct (waitForExistence env (p_submap_service p) 2); [|reflexivity].
  destruct (transformPoint env _ anchor) as [transformed|]; [|reflexivity].
  destruct (callGetGridMap env _ (pullRequest st transformed)); reflexivity.
Qed.

(** ** What the callbacks never write *)

(** X9.  Whatever callbacks run, in whatever order and with whatever
    arguments, the members set from the parameters (service name, update
    duration, image settings, frames, submap point, map length, footprint
    yaw, bag paths and topic), the list of required layers and the timer
    stay as they were. *)
Theorem configuration_never_changes : forall events (st : Node),
  config (run st events) = config st.
Proof.
  intros events st.
  apply maintains_run with (P := fun s => config s = config st); try reflexivity.
  - intros e s H; exact H.
  - intros s H; exact H.
  - split; [intros m s H | intros s H]; exact H.
Qed.

(** X10.  The accumulated image map and the flag that an image was received
    are written by [imageCallback] only: any sequence of other callbacks
    leaves both as they were, so that without an image the node stays in PULL
    mode with the empty image map the constructor left. *)
Theorem only_images_write_image_members : forall events (st : Node),
  existsb isImage events = false ->
  imageState (run st events) = imageState st /\
  (forall p e, st = construct p e ->
     mode (run st events) = PULL /\ imageGridMap_ (run st events) = emptyGridMap []).
Proof.
  intros events st Hev.
  assert (H : imageState (run st events) = imageState st).
  { revert st; induction events as [|ev rest IH]; intros st; simpl; [reflexivity|].
    simpl in Hev; apply orb_false_iff in Hev; destruct Hev as [Hev Hrest].
    rewrite (IH Hrest).
    apply maintains_other_step with (P := fun s => imageState s = imageState st);
      auto using engineFree_imageState, stampFree_imageState. }
  split; [exact H|].
  intros p e ->. injection H as Hflag Hmap.
  split; [unfold mode; rewrite Hflag; reflexivity | rewrite Hmap; reflexivity].
Qed.

(** ** The engine calls of a batch of footprint paths *)

(** X12.  The engine is asked to check the paths of a batch one by one in
    input order.  When all checks succeed it has been asked once per path;
    when a check fails it has been asked for the paths up to and including
    the failing one and for none of the paths behind it.  Apart from the
    engine, the node is as before. *)
Theorem checkFootprintPath_engine_calls :
  forall (request : CheckFootprintPathRequest Path) (st : Node),
  let r := checkFootprintPath request {| cfp_result := [] |} st in
  (forall results e' r',
     ChecksInOrder (traversabilityMap_ st) TraversabilityMap.defaultResult
       (cfp_path request) results e' r' ->
     cfp_path request <> [] ->
     calls r = map (fun path => CallCheckFootprintPath path) (cfp_path request) /\
     after r = setTraversabilityMap e' st) /\
  (forall before path rest results e1 r1,
     cfp_path request = before ++ path :: rest ->
     ChecksInOrder (traversabilityMap_ st) TraversabilityMap.defaultResult
       before results e1 r1 ->
     fst (fst (TraversabilityMap.checkFootprintPath path r1 true e1)) = false ->
     calls r = map (fun path => CallCheckFootprintPath path) (before ++ [path]) /\
     after r
     = setTraversabilityMap
         (snd (TraversabilityMap.checkFootprintPath path r1 true e1)) st).
Proof.
  intros request st r; subst r; unfold checkFootprintPath; cbv zeta.
  split.
  - intros results e' r' Hc Hne.
    destruct (cfp_path request) as [|p0 ps] eqn:Hp; [congruence|].
    change (Nat.eqb (List.length (p0 :: ps)) 0) with false; cbv iota.
    simpl cfp_result.
    unfold bind; rewrite (checkFootprintPathLoop_ok Hc st [] eq_refl).
    unfold calls, after; simpl. rewrite app_nil_r; split; reflexivity.
  - intros before path rest results e1 r1 Hsplit Hc Hfail.
    rewrite Hsplit.
    assert (Hlen : Nat.eqb (List.length (before ++ path :: rest)) 0 = false).
    { rewrite length_app; simpl. apply Nat.eqb_neq; lia. }
    rewrite Hlen; cbv iota. simpl cfp_result.
    unfold bind; rewrite (checkFootprintPathLoop_fail Hc path rest st [] eq_refl Hfail).
    unfold calls, after; simpl. rewrite app_nil_r; split; reflexivity.
Qed.

(** ** The layers of a loaded elevation map *)

Lemma getLayers_add_new : forall layer data m,
  exists_ layer m = false -> getLayers (add layer data m) = getLayers m ++ [layer].
Proof.
  intros layer data m H; unfold getLayers, add; simpl. rewrite H.
  rewrite map_app; reflexivity.
Qed.

Lemma addMissingLayers_names : forall layers m,
  NoDup layers ->
  getLayers (addMissingLayers layers m) = getLayers m ++ missingLayers layers m.
Proof.
  induction layers as [|l ls IH]; intros m Hnd; simpl.
  - symmetry; apply app_nil_r.
  - inversion Hnd as [|? ? Hnin Hnd']; subst.
    rewrite (IH _ Hnd'). unfold missingLayers; simpl.
    destruct (exists_ l m) eqn:Hex; simpl; [reflexivity|].
    unfold addConstant. rewrite getLayers_add_new by assumption.
    rewrite <- app_assoc; simpl. do 2 f_equal.
    apply filter_ext_in. intros x Hx.
    rewrite exists_add_other; [reflexivity|].
    intros ->; contradiction.
Qed.

Lemma toMessage_aligned : forall m,
  List.length (msg_data (toMessage m)) = List.length (msg_layers (toMessage m)).
Proof. intros m; unfold toMessage, getLayers; simpl. rewrite !length_map; reflexivity. Qed.

(** X13.  In every reachable state, the elevation map a successful load
    hands to the engine lists the layers of the stored map first, in their
    stored order, followed by those of elevation, upper_bound and
    lower_bound that the stored map lacked, in that order; every one of the
    three is present, and the message carries one data array per layer. *)
Theorem loaded_map_layer_order : forall (p : Params) (e : E) events env (response : unit) map,
  let st := run (construct p e) events in
  loadFromBag env (p_load_path_to_bag p) (p_elevation_map_topic p) = Some map ->
  exists msg,
    calls (loadElevationMap env response st)
    = [CallLoadFromBag (p_load_path_to_bag p) (p_elevation_map_topic p);
       CallSetElevationMap msg; CallComputeTraversability] /\
    msg_layers msg = getLayers map ++ missingLayers requiredLayers map /\
    (forall layer, In layer requiredLayers -> In layer (msg_layers msg)) /\
    List.length (msg_data msg) = List.length (msg_layers msg).
Proof.
  intros p e events env response map st Hload.
  destruct (reachable_members p e events) as (_ & Htopic & Hpath & _).
  destruct (reachable_config p e events) as (_ & _ & Hlayers & _).
  fold st in Htopic, Hpath, Hlayers.
  rewrite loadElevationMap_eq, Hpath, Htopic, Hload, Hlayers; cbv zeta.
  eexists; split; [reflexivity|].
  assert (Hnames : msg_layers (toMessage (setTimestamp (now env)
                                            (addMissingLayers requiredLayers map)))
                   = getLayers map ++ missingLayers requiredLayers map).
  { change (getLayers (addMissingLayers requiredLayers map)
            = getLayers map ++ missingLayers requiredLayers map).
    apply addMissingLayers_names.
    repeat constructor; simpl; intuition discriminate. }
  split; [exact Hnames|]. split; [|apply toMessage_aligned].
  intros layer Hin. rewrite Hnames. apply in_or_app.
  destruct (exists_ layer map) eqn:Hex.
  - left; apply exists_In; assumption.
  - right; unfold missingLayers; apply filter_In; split; [assumption|].
    rewrite Hex; reflexivity.
Qed.

(** ** Images *)

Lemma replace_replace : forall layer data ls,
  replace layer data (replace layer data ls) = replace layer data ls.
Proof.
  induction ls as [|[l d] ls IH]; simpl; [reflexivity|].
  destruct (String.eqb l layer) eqn:Heq; simpl; rewrite Heq; [reflexivity|].
  rewrite IH; reflexivity.
Qed.

Lemma replace_app_new : forall layer data ls,
  lookup layer ls = None ->
  replace layer data (ls ++ [(layer, data)]) = ls ++ [(layer, data)].
Proof.
  induction ls as [|[l d] ls IH]; simpl; intros H.
  - rewrite String.eqb_refl; reflexivity.
  - destruct (String.eqb l layer); [discriminate|]. rewrite IH by assumption; reflexivity.
Qed.

(** Adding the same data to the same layer twice is adding it once. *)
Lemma add_add : forall layer data m, add layer data (add layer data m) = add layer data m.
Proof.
  intros layer data m.
  unfold add at 1. rewrite exists_add_same. unfold add; simpl.
  unfold exists_, get.
  destruct (lookup layer (layers_ m)) eqn:H.
  - rewrite replace_replace; reflexivity.
  - rewrite replace_app_new by assumption; reflexivity.
Qed.

Lemma addLayerFromImage_twice : forall image layer m lo hi,
  snd (addLayerFromImage image layer (snd (addLayerFromImage image layer m lo hi)) lo hi)
  = snd (addLayerFromImage image layer m lo hi).
Proof.
  intros image layer m lo hi; unfold addLayerFromImage.
  destruct (imageToMatrix image lo hi) as [d|]; simpl; [|reflexivity].
  destruct (sameSize image m) eqn:Hs; simpl.
  - change (sameSize image (add layer d m)) with (sameSize image m). rewrite Hs; simpl.
    apply add_add.
  - rewrite Hs; reflexivity.
Qed.

(** X14.  Delivering the same image a second time does not change the
    accumulated map: after an image, whether it was the first one or not, the
    same image again leaves [imageGridMap_] as it is and hands the engine the
    same elevation map once more. *)
Theorem image_redelivery_changes_nothing : forall image (st : Node),
  let st1 := after (imageCallback image st) in
  imageGridMap_ (after (imageCallback image st1)) = imageGridMap_ st1 /\
  calls (imageCallback image st1) = calls (imageCallback image st).
Proof.
  intros image st st1.
  assert (H1 : imageGridMap_ st1 = accumulated image st)
    by (unfold st1; rewrite imageCallback_eq; reflexivity).
  assert (Hacc : accumulated image st1 = accumulated image st).
  { unfold accumulated at 1.
    replace (getImageCallback_ st1) with true
      by (unfold st1; rewrite imageCallback_eq; reflexivity).
    replace (imageMinHeight_ st1) with (imageMinHeight_ st)
      by (unfold st1; rewrite imageCallback_eq; reflexivity).
    replace (imageMaxHeight_ st1) with (imageMaxHeight_ st)
      by (unfold st1; rewrite imageCallback_eq; reflexivity).
    rewrite H1. unfold accumulated. apply addLayerFromImage_twice. }
  rewrite (imageCallback_eq image st1), (imageCallback_eq image st), Hacc.
  split; [simpl; symmetry; exact H1 | reflexivity].
Qed.

(** X15.  The result of [addLayerFromImage] is not looked at: when a later
    image is refused (it cannot be decoded, or it has not the size of the
    map), [imageCallback] still returns normally, keeps the accumulated map
    as it is and hands that unchanged map to the engine again. *)
Theorem refused_image_is_ignored : forall image (st : Node),
  getImageCallback_ st = true ->
  fst (addLayerFromImage image "elevation" (imageGridMap_ st)
         (imageMinHeight_ st) (imageMaxHeight_ st)) = false ->
  value (imageCallback image st) = Returned true tt /\
  imageGridMap_ (after (imageCallback image st)) = imageGridMap_ st /\
  calls (imageCallback image st) = [CallSetElevationMap (toMessage (imageGridMap_ st))].
Proof.
  intros image st Hf Hrefused.
  assert (Hacc : accumulated image st = imageGridMap_ st).
  { unfold accumulated; rewrite Hf. unfold addLayerFromImage in *.
    destruct (imageToMatrix image (imageMinHeight_ st) (imageMaxHeight_ st));
      [|reflexivity].
    destruct (sameSize image (imageGridMap_ st)); [discriminate | reflexivity]. }
  rewrite imageCallback_eq, Hacc. repeat split.
Qed.

(** X16.  Loading an elevation map does not look at the acquisition mode:
    after an image, a successful load replaces the elevation map of the
    engine by the loaded one and leaves the node in PUSH mode with its
    accumulated image map, so that the update that follows computes on the
    loaded map without any new input. *)
Theorem load_replaces_pushed_input : forall image env (st : Node) map,
  loadFromBag env (pathToLoadBag_ st) (bagTopicName_ st) = Some map ->
  let events := [EvImage image; EvLoadElevationMap env] in
  let loaded :=
    setTimestamp (now env) (addMissingLayers (elevationMapLayers_ st) map) in
  lastElevationMap (allCalls st events) = Some (toMessage loaded) /\
  mode (run st events) = PUSH /\
  imageGridMap_ (run st events) = imageGridMap_ (fst (step (EvImage image) st)) /\
  forall env', calls (updateTraversability env' (run st events)) = [CallComputeTraversability].
Proof.
  intros image env st map Hload events loaded; subst events loaded.
  unfold lastElevationMap; simpl.
  rewrite imageCallback_eq; simpl.
  rewrite loadElevationMap_eq; simpl. rewrite Hload; cbv zeta.
  unfold calls, after; simpl.
  split; [reflexivity|]. split; [reflexivity|]. split; [reflexivity|].
  intros env'. rewrite updateTraversability_push by reflexivity. reflexivity.
Qed.

(** X18.  Once an image has been received, no sequence of callbacks changes
    the geometry or the time stamp of the accumulated image map, or any of
    its layers other than the elevation layer. *)
Theorem accumulated_geometry_is_fixed : forall events (st : Node),
  getImageCallback_ st = true ->
  geometry (imageGridMap_ (run st events)) = geometry (imageGridMap_ st) /\
  timestamp_ (imageGridMap_ (run st events)) = timestamp_ (imageGridMap_ st) /\
  (forall layer,
     layer <> "elevation" ->
     get layer (imageGridMap_ (run st events)) = get layer (imageGridMap_ st)).
Proof.
  induction events as [|ev rest IH]; intros st Hf; simpl.
  - repeat split.
  - assert (Hf' : getImageCallback_ (fst (step ev st)) = true)
      by (rewrite step_flag, Hf; reflexivity).
    destruct (IH _ Hf') as (Hg & Ht & Hl).
    assert (Hstep : geometry (imageGridMap_ (fst (step ev st))) = geometry (imageGridMap_ st)
                    /\ timestamp_ (imageGridMap_ (fst (step ev st)))
                       = timestamp_ (imageGridMap_ st)
                    /\ forall layer, layer <> "elevation" ->
                         get layer (imageGridMap_ (fst (step ev st)))
                         = get layer (imageGridMap_ st)).
    { destruct (isImage ev) eqn:Hev.
      - destruct ev as [img|env|polls env|env|request|request|env| |env];
          try discriminate; simpl.
        rewrite imageCallback_eq; simpl. unfold accumulated; rewrite Hf.
        destruct (addLayerFromImage_geometry img "elevation" (imageGridMap_ st)
                    (imageMinHeight_ st) (imageMaxHeight_ st)) as [Hg1 Ht1].
        split; [exact Hg1|]. split; [exact Ht1|].
        intros layer Hne; apply addLayerFromImage_other; assumption.
      - assert (Hi : imageState (fst (step ev st)) = imageState st).
        { apply maintains_other_step with (P := fun s => imageState s = imageState st);
            auto using engineFree_imageState, stampFree_imageState. }
        injection Hi as _ Hmap. rewrite Hmap; repeat split. }
    destruct Hstep as (Hg0 & Ht0 & Hl0).
    split; [congruence|]. split; [congruence|].
    intros layer Hne. rewrite (Hl layer Hne). apply Hl0; assumption.
Qed.

(** ** Requests for layers the map lacks *)

Lemma layerData_absent : forall m layers layer,
  In layer layers -> exists_ layer m = false -> layerData m layers = None.
Proof.
  induction layers as [|l ls IH]; simpl; intros layer Hin Hex; [contradiction|].
  destruct Hin as [-> | Hin].
  - unfold exists_ in Hex. destruct (get layer m); [discriminate | reflexivity].
  - destruct (get l m); [|reflexivity]. rewrite (IH layer Hin Hex); reflexivity.
Qed.

(** X17.  A request that names a layer the traversability map does not have
    makes [getTraversabilityMap] throw, whether or not the requested region
    can be extracted: the client receives no response, the node is as before
    and no collaborator was called. *)
Theorem absent_layer_request_throws :
  forall (request : GetGridMapRequest) (response : GetGridMapResponse) (st : Node) layer,
  In layer (req_layers request) ->
  exists_ layer (TraversabilityMap.getTraversabilityMap (traversabilityMap_ st)) = false ->
  getTraversabilityMap request response st = (Threw, st, []) /\
  delivered (value (getTraversabilityMap request response st)) = None.
Proof.
  intros request response st layer Hin Hex.
  assert (Hsub : forall position length,
             exists_ layer (fst (getSubmap (TraversabilityMap.getTraversabilityMap
                                              (traversabilityMap_ st)) position length))
             = false).
  { intros position length.
    destruct (exists_ layer (fst (getSubmap _ position length))) eqn:H; [|reflexivity].
    apply exists_In in H. rewrite getSubmap_layers in H. apply exists_In in H.
    congruence. }
  unfold getTraversabilityMap; cbv zeta. unfold bind, gets; cbv beta iota.
  destruct (req_layers request) as [|l0 ls] eqn:Hl; [contradiction|].
  unfold toMessageLayers.
  rewrite (layerData_absent _ (l0 :: ls) layer Hin (Hsub _ _)).
  split; reflexivity.
Qed.

End FurtherProperties.

(** * The further properties on the reference instance *)

Import ReferenceCases.

Lemma updateParameter_succeeds_iff_witness :
  system (env true) (filterCommand (env true) (node0 1)) = 0%Z /\
  system (env true) (footprintCommand (env true) (node0 1)) = 0%Z /\
  fst (TraversabilityMap.updateFilter (traversabilityMap_ (node0 1))) = true /\
  value (updateParameter (env true) tt (node0 1)) = Returned true tt.
Proof.
  split; [reflexivity|]. split; [reflexivity|]. split; [reflexivity|].
  apply (proj2 (proj1 (updateParameter_succeeds_iff (env true) tt (node0 1)))).
  repeat split.
Defined.

Lemma updateParameter_stops_at_first_failure_witness :
  system envFootprintLoadFails (filterCommand envFootprintLoadFails (node0 1)) = 0%Z /\
  system envFootprintLoadFails (footprintCommand envFootprintLoadFails (node0 1)) <> 0%Z /\
  after (updateParameter envFootprintLoadFails tt (node0 1)) = node0 1.
Proof.
  assert (H1 : system envFootprintLoadFails (filterCommand envFootprintLoadFails (node0 1))
               = 0%Z) by reflexivity.
  assert (H2 : system envFootprintLoadFails
                 (footprintCommand envFootprintLoadFails (node0 1)) <> 0%Z)
    by (vm_compute; discriminate).
  split; [exact H1|]. split; [exact H2|].
  destruct (updateParameter_stops_at_first_failure envFootprintLoadFails tt (node0 1))
    as (_ & H & _).
  exact (proj2 (H H1 H2)).
Defined.

Lemma update_without_provider_witness :
  getImageCallback_ (node0 1) = false /\
  waitForExistence envNoProvider (submapServiceName_ (node0 1)) 2 = false /\
  after (updateTraversability envNoProvider (node0 1)) = node0 1.
Proof.
  split; [reflexivity|]. split; [reflexivity|].
  rewrite (update_without_provider envNoProvider (node0 1) eq_refl eq_refl). reflexivity.
Defined.

Lemma pull_update_succeeds_iff_witness :
  getImageCallback_ (node0 0) = false /\
  value (updateTraversability (env true) (node0 0)) = true /\
  value (updateTraversability envCallFails (node0 0)) = false.
Proof.
  split; [reflexivity|]. split.
  - apply (proj2 (pull_update_succeeds_iff (env true) (node0 0) eq_refl)).
    split; [reflexivity|].
    eexists; eexists. split; [reflexivity|]. split; reflexivity.
  - destruct (value (updateTraversability envCallFails (node0 0))) eqn:Hv; [|reflexivity].
    apply (proj1 (pull_update_succeeds_iff envCallFails (node0 0) eq_refl)) in Hv.
    destruct Hv as (_ & t & resp & _ & Hc & _). discriminate Hc.
Defined.

Lemma engine_input_replaced_only_by_pull_witness :
  In (CallSetElevationMap
        (toMessage (addConstant "lower_bound" 0 (addConstant "upper_bound" 0 elevationOnly))))
     (calls (updateTraversability (env true) (node0 0))) /\
  forall msg, ~ In (CallSetElevationMap msg) (calls (updateTraversability (env true) pushed)).
Proof.
  split.
  - apply (proj2 (engine_input_replaced_only_by_pull (env true) (node0 0) _)).
    split; [reflexivity|]. split; [reflexivity|].
    eexists; eexists. split; [reflexivity|]. split; reflexivity.
  - intros msg Hin.
    apply (proj1 (engine_input_replaced_only_by_pull (env true) pushed msg)) in Hin.
    destruct Hin as (Hf & _). discriminate Hf.
Defined.

Lemma transform_request_contents_witness :
  mode (run (node0 1) [EvSaveToBag (env true)]) = PULL /\
  filter isTransformRequest
    (calls (updateTraversability (env false) (run (node0 1) [EvSaveToBag (env true)])))
  = [CallTransformPoint "map"
       {| ps_header := {| stamp := 0; frame_id := "robot" |};
          ps_point := {| point_x := 0; point_y := 0; point_z := 0 |} |}].
Proof.
  assert (Hmode : mode (run (node0 1) [EvSaveToBag (env true)]) = PULL) by reflexivity.
  split; [exact Hmode|].
  exact (transform_request_contents (params 1) engine0 [EvSaveToBag (env true)]
           (env false) Hmode).
Defined.

Lemma only_images_write_image_members_witness :
  existsb isImage otherEvents = false /\
  imageState (run pushed otherEvents) = imageState pushed.
Proof.
  split; [reflexivity|].
  apply (only_images_write_image_members otherEvents pushed eq_refl).
Defined.

Lemma checkFootprintPath_engine_calls_witness :
  cfp_path {| cfp_path := [goodPath 1; emptyPath; goodPath 2] |}
  = [goodPath 1] ++ emptyPath :: [goodPath 2] /\
  calls (checkFootprintPath {| cfp_path := [goodPath 1; emptyPath; goodPath 2] |}
           {| cfp_result := [] |} updated)
  = [CallCheckFootprintPath (goodPath 1); CallCheckFootprintPath emptyPath].
Proof.
  split; [reflexivity|].
  destruct (checkFootprintPath_engine_calls
              {| cfp_path := [goodPath 1; emptyPath; goodPath 2] |} updated) as [_ H].
  refine (proj1 (H [goodPath 1] emptyPath [goodPath 2] _ _ _ eq_refl _ _));
    [eapply ChecksCons; [reflexivity | apply ChecksNil] | reflexivity].
Defined.

Lemma loaded_map_layer_order_witness :
  loadFromBag (env true) (p_load_path_to_bag (params 1)) (p_elevation_map_topic (params 1))
  = Some elevationOnly /\
  exists msg,
    In (CallSetElevationMap msg) (calls (loadElevationMap (env true) tt (node0 1))) /\
    msg_layers msg = ["elevation"; "upper_bound"; "lower_bound"].
Proof.
  assert (Hload : loadFromBag (env true) (p_load_path_to_bag (params 1))
                    (p_elevation_map_topic (params 1)) = Some elevationOnly)
    by reflexivity.
  split; [exact Hload|].
  destruct (loaded_map_layer_order (params 1) engine0 [] (env true) tt Hload)
    as (msg & Hc & Hl & _).
  exists msg; split.
  - change (run (construct (params 1) engine0) []) with (node0 1) in Hc.
    rewrite Hc; right; left; reflexivity.
  - rewrite Hl; reflexivity.
Defined.

Lemma refused_image_is_ignored_witness :
  getImageCallback_ pushed = true /\
  fst (addLayerFromImage wideImage "elevation" (imageGridMap_ pushed)
         (imageMinHeight_ pushed) (imageMaxHeight_ pushed)) = false /\
  imageGridMap_ (after (imageCallback wideImage pushed)) = imageGridMap_ pushed.
Proof.
  assert (Hf : getImageCallback_ pushed = true) by reflexivity.
  assert (Hr : fst (addLayerFromImage wideImage "elevation" (imageGridMap_ pushed)
                      (imageMinHeight_ pushed) (imageMaxHeight_ pushed)) = false)
    by reflexivity.
  split; [exact Hf|]. split; [exact Hr|].
  destruct (refused_image_is_ignored wideImage pushed Hf Hr) as (_ & H & _).
  exact H.
Defined.

Lemma load_replaces_pushed_input_witness :
  loadFromBag (env true) (pathToLoadBag_ (node0 1)) (bagTopicName_ (node0 1))
  = Some elevationOnly /\
  mode (run (node0 1) [EvImage image; EvLoadElevationMap (env true)]) = PUSH /\
  lastElevationMap (allCalls (node0 1) [EvImage image; EvLoadElevationMap (env true)])
  = Some (toMessage (setTimestamp 42
                       (addMissingLayers requiredLayers elevationOnly))).
Proof.
  assert (Hload : loadFromBag (env true) (pathToLoadBag_ (node0 1))
                    (bagTopicName_ (node0 1)) = Some elevationOnly) by reflexivity.
  split; [exact Hload|].
  destruct (load_replaces_pushed_input image (env true) (node0 1) Hload)
    as (Hl & Hm & _).
  split; [exact Hm | exact Hl].
Defined.

Lemma absent_layer_request_throws_witness :
  In "slope"%string (req_layers (insideRequest ["traversability"; "slope"])) /\
  exists_ "slope"
    (TraversabilityMap.getTraversabilityMap (traversabilityMap_ updated)) = false /\
  value (getTraversabilityMap (insideRequest ["traversability"; "slope"])
           {| resp_map := defaultGridMapMsg |} updated)
  = Threw.
Proof.
  assert (Hin : In "slope"%string (req_layers (insideRequest ["traversability"; "slope"])))
    by (right; left; reflexivity).
  assert (Hex : exists_ "slope"
                  (TraversabilityMap.getTraversabilityMap (traversabilityMap_ updated))
                = false) by reflexivity.
  split; [exact Hin|]. split; [exact Hex|].
  destruct (absent_layer_request_throws (insideRequest ["traversability"; "slope"])
              {| resp_map := defaultGridMapMsg |} updated "slope"%string Hin Hex)
    as [H _].
  rewrite H; reflexivity.
Defined.

Lemma accumulated_geometry_is_fixed_witness :
  getImageCallback_ pushed = true /\
  geometry (imageGridMap_ (run pushed laterEvents)) = geometry (imageGridMap_ pushed) /\
  get "uncertainty_range" (imageGridMap_ (run pushed laterEvents))
  = get "uncertainty_range" (imageGridMap_ pushed).
Proof.
  assert (Hf : getImageCallback_ pushed = true) by reflexivity.
  split; [exact Hf|].
  destruct (accumulated_geometry_is_fixed laterEvents pushed Hf) as (Hg & _ & Hl).
  split; [exact Hg|]. apply Hl; discriminate.
Defined.
